(** * Photo-Scrubber: the redaction pipeline of [backend/app/main.py]

    A shallow embedding of the image pipeline (text inpainting, face and
    body blurring, orchestration, the [/process] endpoint) and the
    properties of it that the specification states.

    Conventions.
    - numpy arrays are lists of rows; the arrays that are passed between
      functions live in a store ([heap]) and are named by references, so
      that in-place writes and aliasing are visible;
    - the OpenCV, PIL and Tesseract calls are fields of a record
      [externals]; each may raise, and each call is logged in a [trace];
    - Python exceptions are the [Raise] results of a state-and-error monad;
    - Python floats are modelled by exact rationals.  The only float
      computations of the file are [m * 0.15], [0.25 * w] and [x / 0.75] on
      integers followed by [int(...)]; on pixel-sized integers the binary64
      result truncates to the same integer as the exact rational.  The
      confidence of a text hit is what [float()] returns, which may also be
      an infinity or NaN ([pyfloat]). *)

From Stdlib Require Import ZArith QArith Qround Lia String Ascii Bool.
From stdpp Require Import base option list.

Local Open Scope Z_scope.

(** ** Python numerics *)

(** [int(q)] on a float: truncation toward zero. *)
Definition py_int (q : Q) : Z := Z.quot (Qnum q) (Z.pos (Qden q)).

(** [a < b] on floats. *)
Definition Qltb (a b : Q) : bool := negb (Qle_bool b a).

(** A float that need not be finite: what [float()] can return. *)
Inductive pyfloat :=
| Finite (q : Q)
| PosInf
| NegInf
| NaN.

(** [a < b] for a float [a] and a finite [b]; every comparison with NaN is
    false. *)
Definition float_lt (a : pyfloat) (b : Q) : bool :=
  match a with
  | Finite q => Qltb q b
  | NegInf => true
  | PosInf => false
  | NaN => false
  end.

(** ** Python strings: sequences of code points *)

Abbreviation pystr := (list N).

Definition str (s : string) : pystr := N_of_ascii <$> list_ascii_of_string s.

(** The characters that [str.strip()] removes (those with [str.isspace]). *)
Definition py_isspace (c : N) : bool :=
  ((9 <=? c) && (c <=? 13) || (28 <=? c) && (c <=? 32) || (c =? 133) || (c =? 160)
   || (c =? 5760) || (8192 <=? c) && (c <=? 8202) || (c =? 8232) || (c =? 8233)
   || (c =? 8239) || (c =? 8287) || (c =? 12288))%N.

Fixpoint lstrip (s : pystr) : pystr :=
  match s with
  | c :: s' => if py_isspace c then lstrip s' else s
  | [] => []
  end.

Definition strip (s : pystr) : pystr := rev (lstrip (rev (lstrip s))).

(** Truth value of a string: [not txt] is [negb (truthy txt)]. *)
Definition truthy (s : pystr) : bool :=
  match s with [] => false | _ :: _ => true end.

(** ** Arrays *)

(** A B,G,R pixel of a 3-channel [uint8] image. *)
Abbreviation pixel := (Z * Z * Z)%type.

Abbreviation image := (list (list pixel)).
Abbreviation gray_image := (list (list Z)).
Abbreviation mask_image := (list (list Z)).

Section Arrays.
Context {A : Type}.
Implicit Types a : list (list A).

(** [a.shape[0]] and [a.shape[1]]. *)
Definition height a : Z := Z.of_nat (length a).
Definition width a : Z := Z.of_nat (length (default [] (head a))).

(** The element at row [r], column [c]. *)
Definition at2 a (r c : nat) : option A := a !! r ≫= (.!! c).

(** [a[y1:y2, x1:x2]] for bounds within [0 .. shape] (the only use,
    in [_blur_region], has them clamped). *)
Definition slice2 a (y1 y2 x1 x2 : Z) : list (list A) :=
  (fun row => take (Z.to_nat (x2 - x1)) (drop (Z.to_nat x1) row))
    <$> take (Z.to_nat (y2 - y1)) (drop (Z.to_nat y1) a).

(** Half-open membership [lo <= i < hi] of an index. *)
Definition in_span (lo hi : Z) (i : nat) : bool :=
  (lo <=? Z.of_nat i) && (Z.of_nat i <? hi).

(** The array after [a[y1:y2, x1:x2] = val], [val] of the slice's shape. *)
Definition set_slice2 a (y1 y2 x1 x2 : Z) (val : list (list A)) : list (list A) :=
  imap (fun r row =>
          if in_span y1 y2 r then
            imap (fun c p =>
                    if in_span x1 x2 c
                    then default p (at2 val (r - Z.to_nat y1) (c - Z.to_nat x1))
                    else p) row
          else row) a.

(** Same number of rows and the same length row by row. *)
Definition same_shape {B} a (b : list (list B)) : Prop :=
  length <$> a = length <$> b.

Definition same_shapeb {B} a (b : list (list B)) : bool :=
  bool_decide (length <$> a = length <$> b).
End Arrays.

(** [np.zeros(g.shape, dtype=np.uint8)] for a 2-dimensional [g]. *)
Definition zeros_like (g : gray_image) : mask_image :=
  replicate (length g) (replicate (length (default [] (head g))) 0).

(** Closed membership between two corners given in any order. *)
Definition between (a b : Z) (i : nat) : bool :=
  (Z.min a b <=? Z.of_nat i) && (Z.of_nat i <=? Z.max a b).

(** [cv2.rectangle(m, (x1, y1), (x2, y2), color, thickness=-1)]: the filled
    rectangle contains both corners and is clipped to the array. *)
Definition rectangle (m : mask_image) (x1 y1 x2 y2 color : Z) : mask_image :=
  imap (fun r row =>
          if between y1 y2 r
          then imap (fun c v => if between x1 x2 c then color else v) row
          else row) m.

(** [m.max()]: undefined ([ValueError]) on an array without elements. *)
Definition array_max (m : mask_image) : option Z :=
  match concat m with
  | [] => None
  | v :: vs => Some (foldr Z.max v vs)
  end.

(** ** Exceptions, results, and the monad of the pipeline *)

Inductive exn :=
| KeyError (key : string)
| IndexError
| ValueError
| RuntimeError (msg : string)
| LibraryError (code : nat)   (* raised inside cv2, PIL or pytesseract *)
| Unallocated.                (* a reference that no array was stored at *)

Inductive result (A : Type) :=
| Ok (a : A)
| Raise (e : exn).
Arguments Ok {A} a.
Arguments Raise {A} e.

#[global] Instance result_ret : MRet result := fun A a => Ok a.
#[global] Instance result_bind : MBind result := fun A B f r =>
  match r with Ok a => f a | Raise e => Raise e end.

(** [l[i]] on a Python list. *)
Definition index {A} (l : list A) (i : nat) : result A :=
  match l !! i with Some a => Ok a | None => Raise IndexError end.

(** [d[key]] on a dict whose entry for [key] is [entry]. *)
Definition getitem {A} (key : string) (entry : option A) : result A :=
  match entry with Some a => Ok a | None => Raise (KeyError key) end.

(** A [for] loop over [l] that threads a local value through its body. *)
Fixpoint fold_result {A S} (body : A -> S -> result S) (l : list A) (s : S) : result S :=
  match l with
  | [] => Ok s
  | a :: l' => s' ← body a s; fold_result body l' s'
  end.

(** References to the arrays in the store. *)
Definition loc := nat.

Inductive event :=
| EvPILOpen
| EvPILConvert
| EvNpArray
| EvCvtColor
| EvCvtGray
| EvBilateral
| EvImageToData
| EvInpaint
| EvFaceDetect
| EvGaussianBlur (y1 y2 x1 x2 k : Z)
| EvResize
| EvBodyDetect
| EvImencode.

Record world := World { heap : list image; trace : list event }.

Definition M (A : Type) : Type := world -> result A * world.

#[global] Instance M_ret : MRet M := fun A a w => (Ok a, w).
#[global] Instance M_bind : MBind M := fun A B f m w =>
  match m w with
  | (Ok a, w') => f a w'
  | (Raise e, w') => (Raise e, w')
  end.

Definition raise {A} (e : exn) : M A := fun w => (Raise e, w).

(** A computation that does not touch the store: its value or exception. *)
Definition lift {A} (r : result A) : M A := fun w => (r, w).

(** A call of an external function: logged, then its result or exception. *)
Definition call {A} (ev : event) (r : result A) : M A :=
  fun w => (r, World (heap w) (trace w ++ [ev])).

(** Reading the array a reference names. *)
Definition deref (l : loc) : M image :=
  fun w => match heap w !! l with
           | Some a => (Ok a, w)
           | None => (Raise Unallocated, w)
           end.

(** A new array: it gets a reference no other array has. *)
Definition alloc (a : image) : M loc :=
  fun w => (Ok (length (heap w)), World (heap w ++ [a]) (trace w)).

(** Overwriting the array a reference names. *)
Definition store (l : loc) (a : image) : M unit :=
  fun w => (Ok tt, World (<[l := a]> (heap w)) (trace w)).

(** A [for] loop whose body acts on the store. *)
Fixpoint for_each {A} (l : list A) (body : A -> M unit) : M unit :=
  match l with
  | [] => mret tt
  | a :: l' => body a;; for_each l' body
  end.

(** ** Data of the external libraries *)

(** A PIL image: its mode and its pixels. *)
Record PIL := { mode : string; raster : image }.

(** An entry of the ["conf"] column of Tesseract's table, by what
    [float()] does on it: it returns the finite number [q] ([ConfNumber q]:
    an int, a float, a numeric string), an infinity ([ConfInf]: the float,
    or a string such as ["inf"], ["-Infinity"], ["1e999"]), NaN ([ConfNaN]:
    the float, or the string ["nan"]), or it raises ([ConfOther]: [None],
    any other string). *)
Inductive conf_value :=
| ConfNumber (q : Q)
| ConfInf (negative : bool)
| ConfNaN
| ConfOther.

(** The dict that [pytesseract.image_to_data(..., output_type=DICT)]
    returns: one list per column, [None] for a key that is not there. *)
Record ocr_dict := {
  d_text : option (list (option pystr));
  d_conf : option (list conf_value);
  d_left : option (list Z);
  d_top : option (list Z);
  d_width : option (list Z);
  d_height : option (list Z)
}.

(** A detector rectangle [(x, y, w, h)]. *)
Definition rect : Type := Z * Z * Z * Z.

(** The calls into PIL, numpy, OpenCV and pytesseract. *)
Record externals := {
  PIL_open : list Byte.byte -> result PIL;
  PIL_convert_RGB : PIL -> result PIL;
  np_array : PIL -> result image;
  cvtColor : image -> result image;            (* RGB2BGR and BGR2RGB *)
  cvtColor_GRAY : image -> result gray_image;  (* BGR2GRAY *)
  bilateralFilter : gray_image -> Z -> Z -> Z -> result gray_image;
  image_to_data : image -> result ocr_dict;
  inpaint : image -> mask_image -> Z -> result image;
  (* CascadeClassifier(...).detectMultiScale(gray, 1.1, 5, (24, 24)) *)
  face_detectMultiScale : gray_image -> result (list rect);
  (* HOGDescriptor with the default people detector, detectMultiScale *)
  hog_detectMultiScale : image -> result (list rect * list Q);
  resize : image -> Q -> result image;
  GaussianBlur : image -> Z -> result image;
  imencode_png : image -> result (bool * list Byte.byte)
}.

(** ** The program *)

Record Options := {
  blur_people : bool;
  remove_text : bool;
  blur_strength : Z;
  detect_bodies : bool
}.

(** Lines 85-88: [float(conf_str)], with [-1.0] when it raises. *)
Definition conf_float (c : conf_value) : pyfloat :=
  match c with
  | ConfNumber q => Finite q
  | ConfInf negative => if negative then NegInf else PosInf
  | ConfNaN => NaN
  | ConfOther => Finite (-1)
  end.

(** Line 96: [max(2, int(min(w, h) * 0.15))]. *)
Definition text_pad (w h : Z) : Z :=
  Z.max 2 (py_int (inject_Z (Z.min w h) * 0.15)).

(** Lines 96-101: the two corners handed to [cv2.rectangle] for a hit
    [(x, y, w, h)] on a mask of width [W] and height [H]. *)
Definition text_corners (W H x y w h : Z) : Z * Z * Z * Z :=
  let pad := text_pad w h in
  let x2 := Z.max 0 (x - pad) in
  let y2 := Z.max 0 (y - pad) in
  let w2 := Z.min (W - x2) (w + 2 * pad) in
  let h2 := Z.min (H - y2) (h + 2 * pad) in
  (x2, y2, x2 + w2, y2 + h2).

(** Lines 83-91: does hit [i] pass the filter ([Ok true]), is it skipped
    ([Ok false]), or does reading it raise? *)
Definition hit_kept (data : ocr_dict) (i : nat) : result bool :=
  text ← getitem "text" (d_text data);
  t ← index text i;
  let txt := strip (default [] t) in
  conf_str ← index (default [ConfNumber (-1)] (d_conf data)) i;
  let conf := conf_float conf_str in
  mret (truthy txt && negb (float_lt conf 60)).

(** Line 94: the box of hit [i]. *)
Definition hit_box (data : ocr_dict) (i : nat) : result rect :=
  x ← getitem "left" (d_left data) ≫= (fun l => index l i);
  y ← getitem "top" (d_top data) ≫= (fun l => index l i);
  w ← getitem "width" (d_width data) ≫= (fun l => index l i);
  h ← getitem "height" (d_height data) ≫= (fun l => index l i);
  mret (x, y, w, h).

(** Lines 83-101: the body of the loop over the hits. *)
Definition paint_hit (data : ocr_dict) (i : nat) (mask : mask_image) : result mask_image :=
  keep ← hit_kept data i;
  if negb keep then mret mask
  else
    '(x, y, w, h) ← hit_box data i;
    let '(x2, y2, x3, y3) := text_corners (width mask) (height mask) x y w h in
    mret (rectangle mask x2 y2 x3 y3 255).

(** Lines 79-101: the mask after the loop. *)
Definition text_mask (gray : gray_image) (data : ocr_dict) : result mask_image :=
  let mask := zeros_like gray in
  let n := length (default [] (d_text data)) in
  fold_result (paint_hit data) (seq 0 n) mask.

Section Program.
Variable E : externals.

(** [_pil_to_bgr] *)
Definition _pil_to_bgr (pil_img : PIL) : M loc :=
  pil_img ← (if negb (String.eqb (mode pil_img) "RGB")
             then call EvPILConvert (PIL_convert_RGB E pil_img)
             else mret pil_img);
  arr ← call EvNpArray (np_array E pil_img);
  bgr ← call EvCvtColor (cvtColor E arr);
  alloc bgr.

(** [_bgr_to_png_bytes] *)
Definition _bgr_to_png_bytes (bgr : loc) : M (list Byte.byte) :=
  img ← deref bgr;
  '(ok, buf) ← call EvImencode (imencode_png E img);
  if negb ok then raise (RuntimeError "Failed to encode image as PNG.")
  else mret buf.

(** Line 53: [max(3, int(k) | 1)]. *)
Definition kernel_size (k : Z) : Z := Z.max 3 (Z.lor k 1).

(** [_blur_region]: writes into the array that [bgr] names.  The
    assignment to the slice raises when the value has another shape (that
    numpy would stretch a value of one row or one column is left out:
    [GaussianBlur] returns the shape of its input). *)
Definition _blur_region (bgr : loc) (x y w h k : Z) : M unit :=
  img ← deref bgr;
  let H := height img in
  let W := width img in
  let x1 := Z.max 0 x in
  let y1 := Z.max 0 y in
  let x2 := Z.min W (x + w) in
  let y2 := Z.min H (y + h) in
  if (x2 <=? x1) || (y2 <=? y1) then mret tt
  else
    let roi := slice2 img y1 y2 x1 x2 in
    let k := kernel_size k in
    blurred ← call (EvGaussianBlur y1 y2 x1 x2 k) (GaussianBlur E roi k);
    if same_shapeb blurred roi
    then store bgr (set_slice2 img y1 y2 x1 x2 blurred)
    else raise ValueError.

(** [scrub_text]: returns [bgr] itself or a new array. *)
Definition scrub_text (bgr : loc) : M loc :=
  img ← deref bgr;
  rgb ← call EvCvtColor (cvtColor E img);
  gray ← call EvCvtGray (cvtColor_GRAY E img);
  gray ← call EvBilateral (bilateralFilter E gray 7 50 50);
  data ← call EvImageToData (image_to_data E rgb);
  mask ← lift (text_mask gray data);
  match array_max mask with
  | None => raise ValueError
  | Some mx =>
      if mx =? 0 then mret bgr
      else
        inpainted ← call EvInpaint (inpaint E img mask 3);
        alloc inpainted
  end.

(** Line 121: [int(0.25 * w)]. *)
Definition face_pad (w : Z) : Z := py_int (0.25 * inject_Z w).

(** Line 129: the factor of the body pass. *)
Definition body_scale (img : image) : Q :=
  if Z.max (height img) (width img) >? 900 then 0.75 else 1.0.

(** Line 138: a coordinate mapped back, [int(x / scale)]. *)
Definition remap (scale : Q) (x : Z) : Z := py_int (inject_Z x / scale).

(** Lines 133-139: the body of the loop over the body detections. *)
Definition blur_body (out : loc) (scale : Q) (blur_strength : Z) (hit : rect * Q) : M unit :=
  let '((x, y, w, h), wt) := hit in
  if Qltb wt 0.5 then mret tt
  else
    let '(x, y, w, h) :=
      if negb (Qeq_bool scale 1.0)
      then (remap scale x, remap scale y, remap scale w, remap scale h)
      else (x, y, w, h) in
    _blur_region out x y w h blur_strength.

(** Lines 119-122: the body of the loop over the faces. *)
Definition blur_face (out : loc) (blur_strength : Z) (hit : rect) : M unit :=
  let '(x, y, w, h) := hit in
  let pad := face_pad w in
  _blur_region out (x - pad) (y - pad) (w + 2 * pad) (h + 2 * pad) blur_strength.

(** Lines 116-122: the face pass on the copy [out]. *)
Definition face_pass (out : loc) (blur_strength : Z) : M unit :=
  img ← deref out;
  gray ← call EvCvtGray (cvtColor_GRAY E img);
  faces ← call EvFaceDetect (face_detectMultiScale E gray);
  for_each faces (blur_face out blur_strength).

(** Lines 125-139: the body pass on the copy [out]; [small] is [out]
    itself when the scale is 1. *)
Definition body_pass (out : loc) (blur_strength : Z) : M unit :=
  img ← deref out;
  let scale := body_scale img in
  small ← (if negb (Qeq_bool scale 1.0)
           then call EvResize (resize E img scale)
           else mret img);
  '(rects, weights) ← call EvBodyDetect (hog_detectMultiScale E small);
  for_each (zip rects weights) (blur_body out scale blur_strength).

(** [bgr.copy()] *)
Definition copy (bgr : loc) : M loc :=
  img ← deref bgr; alloc img.

(** [scrub_people]: works on a copy and returns the copy. *)
Definition scrub_people (bgr : loc) (blur_strength : Z) (detect_bodies : bool) : M loc :=
  out ← copy bgr;
  face_pass out blur_strength;;
  (if detect_bodies then body_pass out blur_strength else mret tt);;
  mret out.

(** [process_image] *)
Definition process_image (pil_img : PIL) (opts : Options) : M loc :=
  bgr ← _pil_to_bgr pil_img;
  bgr ← (if remove_text opts then scrub_text bgr else mret bgr);
  bgr ← (if blur_people opts
         then scrub_people bgr (blur_strength opts) (detect_bodies opts)
         else mret bgr);
  mret bgr.

(** Line 171: [max(3, min(151, blur_strength))]. *)
Definition clamp_strength (blur_strength : Z) : Z :=
  Z.max 3 (Z.min 151 blur_strength).

(** [process]: the handler of [POST /process], from the bytes read from
    the upload to the PNG bytes of the response ([int(blur_strength)] is the
    integer itself). *)
Definition process (raw : list Byte.byte)
    (blur_people remove_text : bool) (blur_strength : Z) (detect_bodies : bool)
    : M (list Byte.byte) :=
  let blur_strength := clamp_strength blur_strength in
  pil ← call EvPILOpen (PIL_open E raw);
  let opts := {| blur_people := blur_people; remove_text := remove_text;
                 blur_strength := blur_strength; detect_bodies := detect_bodies |} in
  out_bgr ← process_image pil opts;
  _bgr_to_png_bytes out_bgr.
End Program.

(** ** Relations between the worlds of a run *)

(** [respects R m]: every run of [m] relates its first world to its last. *)
Definition respects {A} (R : relation world) (m : M A) : Prop :=
  forall w r w', m w = (r, w') -> R w w'.

(** The run appends to the trace only events that satisfy [P]. *)
Definition emits (P : event -> Prop) : relation world :=
  fun w w' => exists t, trace w' = trace w ++ t /\ Forall P t.

(** The run keeps the arrays that were allocated before it at references
    below [n], and frees nothing. *)
Definition keeps (n : nat) : relation world :=
  fun w w' =>
    (length (heap w) <= length (heap w'))%nat /\
    forall l, (l < n)%nat -> (l < length (heap w))%nat -> heap w' !! l = heap w !! l.

(** The events of a run that blurs with kernel size [k] only. *)
Definition blur_kernel_is (k : Z) (ev : event) : Prop :=
  match ev with
  | EvGaussianBlur _ _ _ _ k' => k' = k
  | _ => True
  end.

(** The stages of the pipeline by the external calls they make. *)
Definition decode_event (ev : event) : bool :=
  match ev with EvPILConvert | EvNpArray | EvCvtColor => true | _ => false end.

Definition text_event (ev : event) : bool :=
  match ev with
  | EvCvtColor | EvCvtGray | EvBilateral | EvImageToData | EvInpaint => true
  | _ => false
  end.

Definition person_event (ev : event) : bool :=
  match ev with
  | EvCvtGray | EvFaceDetect | EvGaussianBlur _ _ _ _ _ | EvResize | EvBodyDetect => true
  | _ => false
  end.

(** ** The painted region of the Text Redactor *)

(** Is the pixel at row [r], column [c] in the rectangle that line 101
    paints for the box [b] on a mask of width [W] and height [H]? *)
Definition in_text_box (W H : Z) (b : rect) (r c : nat) : bool :=
  let '(x, y, w, h) := b in
  let '(x2, y2, x3, y3) := text_corners W H x y w h in
  between y2 y3 r && between x2 x3 c.

(** The union of the rectangles painted for the hits that pass the filter. *)
Definition in_text_boxes (data : ocr_dict) (W H : Z) (r c : nat) : Prop :=
  exists i b,
    hit_kept data i = Ok true /\ hit_box data i = Ok b /\ in_text_box W H b r c = true.

(** ** Contracts of the external operations *)

(** The inpainter changes no pixel that the mask does not mark: where the
    mask is 0 (or has no entry) the output reads as the input. *)
Definition inpaint_only_masked (E : externals) : Prop :=
  forall img mask radius out,
    inpaint E img mask radius = Ok out ->
    forall r c, (forall v, at2 mask r c = Some v -> v = 0) -> at2 out r c = at2 img r c.

(** The grayscale image handed to [np.zeros] has the height and width of
    the frame ([cvtColor] and [bilateralFilter] keep them). *)
Definition gray_keeps_shape (E : externals) : Prop :=
  (forall img g, cvtColor_GRAY E img = Ok g -> width g = width img /\ height g = height img) /\
  (forall g d sc ss g', bilateralFilter E g d sc ss = Ok g' ->
     width g' = width g /\ height g' = height g).

(** ** The words of the specification, for comparison *)

(** [round(q)]: the nearest integer (halves upward). *)
Definition spec_round (q : Q) : Z := Qfloor (q + (1 # 2)).

(** "padding margin = max(2, round(0.15 x min(w, h)))" *)
Definition spec_text_pad (w h : Z) : Z :=
  Z.max 2 (spec_round (0.15 * inject_Z (Z.min w h))).

(** "expand the box by that margin on all sides, clamp to buffer bounds":
    is the pixel at row [r], column [c] in that box? *)
Definition in_spec_text_box (W H : Z) (b : rect) (r c : nat) : bool :=
  let '(x, y, w, h) := b in
  let pad := spec_text_pad w h in
  in_span (Z.max 0 (y - pad)) (Z.min H (y + h + pad)) r
  && in_span (Z.max 0 (x - pad)) (Z.min W (x + w + pad)) c.

(** "the union of the padded, clamped detected text boxes", taken over
    every hit of the table, kept or not: the largest region that the words
    can mean. *)
Definition in_spec_text_boxes (data : ocr_dict) (W H : Z) (r c : nat) : Prop :=
  exists i b, hit_box data i = Ok b /\ in_spec_text_box W H b r c = true.



(** "expand by pad = round(0.25 x w) on all sides" *)
Definition spec_face_pad (w : Z) : Z := spec_round (0.25 * inject_Z w).

(** "dividing by the downscale factor ... rounding to nearest integer pixel" *)
Definition spec_remap (scale : Q) (x : Z) : Z := spec_round (inject_Z x / scale).

(** ** A concrete environment, to run the program on *)

Module Demo.

(** A frame of one colour. *)
Definition frame (h w : nat) : image := replicate h (replicate w (10, 20, 30)).

(** An inpainter that blackens the marked pixels. *)
Definition blacken (img : image) (mask : mask_image) (radius : Z) : result image :=
  Ok (imap (fun r row =>
              imap (fun c p =>
                      match at2 mask r c with
                      | Some v => if v =? 0 then p else (0, 0, 0)
                      | None => p
                      end) row) img).

(** A blur that greys the slice. *)
Definition grey_out (roi : image) (k : Z) : result image :=
  Ok ((fun row : list pixel => (fun _ : pixel => ((128, 128, 128) : pixel)) <$> row) <$> roi).

Definition to_gray (img : image) : result gray_image :=
  Ok ((fun row : list pixel =>
        (fun p : pixel => let '(b, g, r) := p in (b + g + r) / 3) <$> row) <$> img).

Definition swap_channels (img : image) : result image :=
  Ok ((fun row : list pixel =>
        (fun p : pixel => let '(b, g, r) := p in ((r, g, b) : pixel)) <$> row) <$> img).

(** Four hits: a word, blanks, a word of low confidence, a word whose
    confidence is no number. *)
Definition table : ocr_dict := {|
  d_text := Some [Some (str "Hello"); Some (str "   "); Some (str "dim"); None];
  d_conf := Some [ConfNumber 96; ConfNumber 95; ConfNumber 30; ConfOther];
  d_left := Some [20; 0; 60; 70];
  d_top := Some [20; 0; 60; 70];
  d_width := Some [40; 17; 10; 10];
  d_height := Some [40; 17; 10; 10]
|}.


Definition env (data : ocr_dict) (faces : list rect) (bodies : list rect * list Q)
    : externals := {|
  PIL_open := fun raw => Ok {| mode := "RGB"; raster := frame 100 100 |};
  PIL_convert_RGB := fun pil => Ok {| mode := "RGB"; raster := raster pil |};
  np_array := fun pil => Ok (raster pil);
  cvtColor := swap_channels;
  cvtColor_GRAY := to_gray;
  bilateralFilter := fun g d sc ss => Ok g;
  image_to_data := fun rgb => Ok data;
  inpaint := blacken;
  face_detectMultiScale := fun g => Ok faces;
  hog_detectMultiScale := fun img => Ok bodies;
  resize := fun img scale => Ok img;
  GaussianBlur := grey_out;
  imencode_png := fun img => Ok (true, [])
|}.

(** One face, and two bodies of which the second is below the weight. *)
Definition E : externals :=
  env table [(10, 10, 40, 40)] ([(30, 30, 50, 50); (5, 5, 10, 10)], [0.9; 0.3]%Q).

(** A store that holds one frame. *)
Definition world_of (h w : nat) : world := World [frame h w] [].



End Demo.

(** ** Loops that ran to their end *)

(** [loop_runs body l w w']: the body returned on every element of [l] in
    turn, taking the world from [w] to [w']. *)
Inductive loop_runs {A} (body : A -> M unit) : list A -> world -> world -> Prop :=
| loop_done w : loop_runs body [] w w
| loop_step a l w w1 w2 :
    body a w = (Ok tt, w1) -> loop_runs body l w1 w2 -> loop_runs body (a :: l) w w2.

(** ** Further definitions: the rectangles that a run blurs *)

(** Is the pixel at row [r], column [c] in the slice of a blur call? *)
Definition blur_covers (ev : event) (r c : nat) : bool :=
  match ev with
  | EvGaussianBlur y1 y2 x1 x2 _ => in_span y1 y2 r && in_span x1 x2 c
  | _ => false
  end.

(** Is it in the slice of some blur call of the trace [t]? *)
Definition covered (t : list event) (r c : nat) : bool :=
  existsb (fun ev => blur_covers ev r c) t.

(** The run blurs the array at [l] only inside the slices of the blur calls
    it logs, and keeps its shape. *)
Definition confined (l : loc) : relation world :=
  fun w w' =>
    exists t, trace w' = trace w ++ t /\
      forall img, heap w !! l = Some img ->
        exists img', heap w' !! l = Some img' /\ same_shape img' img /\
          forall r c : nat, covered t r c = false -> at2 img' r c = at2 img r c.

(** The blur call that [_blur_region] makes for the rectangle [b] on a
    buffer of width [W] and height [H], if it makes one (lines 46-54). *)
Definition clamp_event (W H k : Z) (b : rect) : option event :=
  let '(x, y, w, h) := b in
  let x1 := Z.max 0 x in
  let y1 := Z.max 0 y in
  let x2 := Z.min W (x + w) in
  let y2 := Z.min H (y + h) in
  if (x2 <=? x1) || (y2 <=? y1) then None
  else Some (EvGaussianBlur y1 y2 x1 x2 (kernel_size k)).

(** Lines 121-122: the rectangle that the face pass blurs for a face. *)
Definition grown_face (b : rect) : rect :=
  let '(x, y, w, h) := b in
  let pad := face_pad w in
  (x - pad, y - pad, w + 2 * pad, h + 2 * pad).

(** Lines 134-138: the rectangle that the body pass blurs for a detection,
    if its weight passes. *)
Definition body_request (scale : Q) (hit : rect * Q) : option rect :=
  let '((x, y, w, h), wt) := hit in
  if Qltb wt 0.5 then None
  else Some (if negb (Qeq_bool scale 1.0)
             then (remap scale x, remap scale y, remap scale w, remap scale h)
             else (x, y, w, h)).

(** An event that is neither the resizing nor the body detection. *)
Definition no_body_event (ev : event) : bool :=
  match ev with EvResize | EvBodyDetect => false | _ => true end.

(** ** Further tables of the concrete environment *)

(** A table without a ["conf"] column. *)
Definition no_conf_table : ocr_dict := {|
  d_text := Some [Some (str "Hello"); Some (str "World")];
  d_conf := None;
  d_left := Some [20; 60];
  d_top := Some [20; 60];
  d_width := Some [40; 10];
  d_height := Some [40; 10]
|}.

(** A table whose kept hit has no ["left"] column to read its box from. *)
Definition no_left_table : ocr_dict := {|
  d_text := Some [Some (str "   "); Some (str "Hello")];
  d_conf := Some [ConfNumber 95; ConfNumber 96];
  d_left := None;
  d_top := Some [0; 20];
  d_width := Some [17; 40];
  d_height := Some [17; 40]
|}.

(** A table whose one hit has a confidence that [float()] reads as NaN. *)
Definition nan_table : ocr_dict := {|
  d_text := Some [Some (str "Hello")];
  d_conf := Some [ConfNaN];
  d_left := Some [1];
  d_top := Some [1];
  d_width := Some [2];
  d_height := Some [2]
|}.


(** ** Further definitions: the size of the store *)

(** The run allocates nothing and frees nothing. *)
Definition same_len : relation world :=
  fun w w' => length (heap w') = length (heap w).

(** The run keeps every array that was there and allocates at most one. *)
Definition one_more (w w' : world) : Prop :=
  keeps (length (heap w)) w w' /\ (length (heap w') <= length (heap w) + 1)%nat.

(** ** Arrays: reading after writing *)

Section ArrayFacts.
Context {A : Type}.
Implicit Types a val : list (list A).

Lemma in_span_spec lo hi i :
  in_span lo hi i = true <-> lo <= Z.of_nat i < hi.
Proof. unfold in_span. rewrite andb_true_iff, Z.leb_le, Z.ltb_lt. tauto. Qed.

Lemma at2_set_slice2 a y1 y2 x1 x2 val r c :
  at2 (set_slice2 a y1 y2 x1 x2 val) r c =
  (fun p => if in_span y1 y2 r && in_span x1 x2 c
            then default p (at2 val (r - Z.to_nat y1) (c - Z.to_nat x1))
            else p) <$> at2 a r c.
Proof.
  unfold at2, set_slice2. rewrite list_lookup_imap.
  destruct (a !! r) as [row|]; simpl; [|done].
  destruct (in_span y1 y2 r); simpl; [|by destruct (row !! c)].
  rewrite list_lookup_imap. by destruct (row !! c).
Qed.

Lemma set_slice2_shape a y1 y2 x1 x2 val :
  same_shape (set_slice2 a y1 y2 x1 x2 val) a.
Proof.
  unfold same_shape, set_slice2. apply list_eq; intros r.
  rewrite !list_lookup_fmap, list_lookup_imap.
  destruct (a !! r) as [row|]; simpl; [|done].
  destruct (in_span y1 y2 r); [|done]. by rewrite length_imap.
Qed.

(** Reading a slice whose bounds are within the array. *)
Lemma at2_slice2 a y1 y2 x1 x2 i j :
  0 <= y1 -> 0 <= x1 ->
  at2 (slice2 a y1 y2 x1 x2) i j =
  if (Z.of_nat i <? y2 - y1) && (Z.of_nat j <? x2 - x1)
  then at2 a (Z.to_nat y1 + i) (Z.to_nat x1 + j) else None.
Proof.
  intros Hy Hx. unfold at2, slice2. rewrite list_lookup_fmap.
  destruct (Z.of_nat i <? y2 - y1) eqn:Hi; simpl.
  - apply Z.ltb_lt in Hi. rewrite lookup_take_lt by lia. rewrite lookup_drop.
    destruct (Z.of_nat j <? x2 - x1) eqn:Hj;
      destruct (a !! (Z.to_nat y1 + i)%nat) as [row|]; simpl; try done.
    + apply Z.ltb_lt in Hj. rewrite lookup_take_lt by lia. by rewrite lookup_drop.
    + apply Z.ltb_ge in Hj. by rewrite lookup_take_ge by lia.
  - apply Z.ltb_ge in Hi. by rewrite lookup_take_ge by lia.
Qed.
End ArrayFacts.

Lemma same_shape_row {A B} (a : list (list A)) (b : list (list B)) r row :
  same_shape a b -> a !! r = Some row ->
  exists row', b !! r = Some row' /\ length row' = length row.
Proof.
  unfold same_shape. intros Hs Hr.
  assert (Hl : (length <$> b) !! r = Some (length row))
    by (rewrite <- Hs, list_lookup_fmap, Hr; done).
  rewrite list_lookup_fmap in Hl.
  destruct (b !! r) as [row'|]; simplify_eq/=. eauto.
Qed.

Lemma same_shape_sym {A B} (a : list (list A)) (b : list (list B)) :
  same_shape a b -> same_shape b a.
Proof. unfold same_shape. intros Hs. by symmetry. Qed.

Lemma same_shape_at2 {A B} (a : list (list A)) (b : list (list B)) r c :
  same_shape a b -> is_Some (at2 a r c) -> is_Some (at2 b r c).
Proof.
  intros Hs [p Hp]. unfold at2 in *.
  destruct (a !! r) as [row|] eqn:Hr; simplify_eq/=.
  destruct (same_shape_row _ _ _ _ Hs Hr) as (row' & -> & Hlen). simpl.
  apply lookup_lt_is_Some. rewrite Hlen. by eapply lookup_lt_Some.
Qed.

Lemma same_shape_at2_None {A B} (a : list (list A)) (b : list (list B)) r c :
  same_shape a b -> at2 a r c = None -> at2 b r c = None.
Proof.
  intros Hs Hn. destruct (at2 b r c) eqn:Hb; [|done].
  destruct (same_shape_at2 b a r c) as [p Hp]; [by apply same_shape_sym|eauto|congruence].
Qed.

Lemma same_shape_width {A B} (a : list (list A)) (b : list (list B)) :
  same_shape a b -> width a = width b /\ height a = height b.
Proof.
  unfold same_shape, width, height. intros Hs. split.
  - destruct a as [|ra a], b as [|rb b]; simplify_eq/=; [done|]. congruence.
  - f_equal. rewrite <- (length_fmap length a), Hs. apply length_fmap.
Qed.

(** ** Runs of the monad *)

Lemma bind_Ok_inv {A B} (m : M A) (f : A -> M B) w b w' :
  (m ≫= f) w = (Ok b, w') ->
  exists a w1, m w = (Ok a, w1) /\ f a w1 = (Ok b, w').
Proof.
  unfold mbind, M_bind. destruct (m w) as [[a|e] w1]; [eauto|done].
Qed.

Lemma bind_Ok {A B} (m : M A) (f : A -> M B) w a w1 :
  m w = (Ok a, w1) -> (m ≫= f) w = f a w1.
Proof. unfold mbind, M_bind. by intros ->. Qed.

Lemma bind_Raise {A B} (m : M A) (f : A -> M B) w e w1 :
  m w = (Raise e, w1) -> (m ≫= f) w = (Raise e, w1).
Proof. unfold mbind, M_bind. by intros ->. Qed.

Lemma bind_ret_r {A} (m : M A) w : (m ≫= mret) w = m w.
Proof. unfold mbind, M_bind. by destruct (m w) as [[a|e] w1]. Qed.

Section Respects.
Context (R : relation world) `{!PreOrder R}.

Lemma respects_ret {A} (a : A) : respects R (mret a).
Proof. intros w r w' [= <- <-]. reflexivity. Qed.

Lemma respects_raise {A} e : respects R (@raise A e).
Proof. intros w r w' [= <- <-]. reflexivity. Qed.

Lemma respects_lift {A} (x : result A) : respects R (lift x).
Proof. intros w r w' [= <- <-]. reflexivity. Qed.

Lemma respects_deref l : respects R (deref l).
Proof.
  intros w r w'. unfold deref. destruct (heap w !! l); intros [= <- <-]; reflexivity.
Qed.

Lemma respects_bind {A B} (m : M A) (f : A -> M B) :
  respects R m -> (forall a, respects R (f a)) -> respects R (m ≫= f).
Proof.
  intros Hm Hf w r w'. unfold mbind, M_bind.
  destruct (m w) as [[a|e] w1] eqn:Hmw.
  - intros Hfa. transitivity w1; [by eapply Hm|by eapply Hf].
  - intros [= <- <-]. by eapply Hm.
Qed.

Lemma respects_for_each {A} (l : list A) (body : A -> M unit) :
  (forall a, respects R (body a)) -> respects R (for_each l body).
Proof.
  intros Hb. induction l as [|a l IH]; simpl.
  - apply respects_ret.
  - apply respects_bind; auto.
Qed.
End Respects.

#[global] Instance emits_preorder P : PreOrder (emits P).
Proof.
  split.
  - intros w. exists []. by rewrite app_nil_r.
  - intros w1 w2 w3 (t1 & H1 & F1) (t2 & H2 & F2). exists (t1 ++ t2). split.
    + by rewrite H2, H1, app_assoc.
    + by apply Forall_app.
Qed.

#[global] Instance keeps_preorder n : PreOrder (keeps n).
Proof.
  split.
  - intros w. split; [lia|done].
  - intros w1 w2 w3 [L1 K1] [L2 K2]. split; [lia|].
    intros l Hn Hl. rewrite K2 by lia. by apply K1.
Qed.

Lemma emits_call {A} P ev (r : result A) : P ev -> respects (emits P) (call ev r).
Proof. intros HP w r' w' [= <- <-]. exists [ev]. split; [done|]. by constructor. Qed.

Lemma emits_alloc P a : respects (emits P) (alloc a).
Proof. intros w r w' [= <- <-]. exists []. by rewrite app_nil_r. Qed.

Lemma emits_store P l a : respects (emits P) (store l a).
Proof. intros w r w' [= <- <-]. exists []. by rewrite app_nil_r. Qed.

Lemma keeps_call {A} n ev (r : result A) : respects (keeps n) (call ev r).
Proof. intros w r' w' [= <- <-]. split; [simpl; lia|done]. Qed.

Lemma keeps_alloc n a : respects (keeps n) (alloc a).
Proof.
  intros w r w' [= <- <-]. split; simpl.
  - rewrite length_app. lia.
  - intros l _ Hl. by apply lookup_app_l.
Qed.

Lemma keeps_store n l a : (n <= l)%nat -> respects (keeps n) (store l a).
Proof.
  intros Hnl w r w' [= <- <-]. split; simpl.
  - by rewrite length_insert.
  - intros l' Hn _. apply list_lookup_insert_ne. lia.
Qed.

Lemma emits_weaken (P Q : event -> Prop) w w' :
  (forall ev, P ev -> Q ev) -> emits P w w' -> emits Q w w'.
Proof.
  intros HPQ (t & Ht & Ft). exists t. split; [done|].
  eapply Forall_impl; eauto.
Qed.

Create HintDb runs discriminated.
#[global] Hint Resolve respects_ret respects_raise respects_lift respects_deref
  emits_alloc emits_store keeps_call keeps_alloc : runs.

(** One step of a proof that a program [respects] a relation. *)
Ltac run_step :=
  match goal with
  | |- respects _ (_ ≫= _) => apply respects_bind; [typeclasses eauto| |intros ?]
  | |- respects _ (for_each _ _) => apply respects_for_each; [typeclasses eauto|intros ?]
  | |- respects _ (if ?b then _ else _) => destruct b
  | |- respects _ (let '(_, _) := ?p in _) => destruct p
  | |- respects _ (match ?o with Some _ => _ | None => _ end) => destruct o
  | |- respects (emits _) (call _ _) => apply emits_call
  | |- respects (keeps _) (store _ _) => apply keeps_store
  | |- respects _ _ => solve [eauto with runs typeclass_instances]
  end.

(** ** Arithmetic of the constants *)

Lemma lor_1 (x : Z) : Z.lor x 1 = 2 * (x / 2) + 1.
Proof.
  apply Z.bits_inj'. intros n Hn. rewrite Z.lor_spec.
  destruct (Z.eq_dec n 0) as [->|Hne].
  - rewrite Z.testbit_odd_0. apply orb_true_r.
  - replace n with (Z.succ (n - 1)) by lia.
    rewrite Z.testbit_odd_succ by lia.
    rewrite <- Z.div2_div, Z.div2_spec, Z.shiftr_spec by lia.
    replace (Z.testbit 1 (Z.succ (n - 1))) with false.
    + rewrite orb_false_r. f_equal; lia.
    + symmetry. apply (Z.bits_above_log2 1); simpl; lia.
Qed.

Lemma lor_1_odd (x : Z) : Z.odd (Z.lor x 1) = true.
Proof. rewrite lor_1, Z.add_comm, Z.odd_add_mul_2. reflexivity. Qed.

Lemma lor_1_bounds (x : Z) : x <= Z.lor x 1 <= x + 1.
Proof.
  rewrite lor_1. pose proof (Z.div_mod x 2 ltac:(lia)).
  pose proof (Z.mod_pos_bound x 2 ltac:(lia)). lia.
Qed.

Lemma text_pad_quot (w h : Z) : text_pad w h = Z.max 2 (Z.quot (3 * Z.min w h) 20).
Proof.
  unfold text_pad, py_int. simpl.
  replace (Z.min w h * 15) with (3 * Z.min w h * 5) by lia.
  change (Z.pos (1 * 100)) with (20 * 5). by rewrite Z.quot_mul_cancel_r by lia.
Qed.

Lemma face_pad_quot (w : Z) : face_pad w = Z.quot w 4.
Proof.
  unfold face_pad, py_int. simpl.
  replace (25 * w) with (w * 25) by lia.
  change (Z.pos (100 * 1)) with (4 * 25). by rewrite Z.quot_mul_cancel_r by lia.
Qed.

Lemma remap_quot (x : Z) : remap 0.75 x = Z.quot (4 * x) 3.
Proof.
  unfold remap, py_int. simpl.
  replace (x * 100) with (4 * x * 25) by lia.
  change (Z.pos (1 * 75)) with (3 * 25). by rewrite Z.quot_mul_cancel_r by lia.
Qed.

(** ** The Region Blur Operator *)

Section BlurRegion.
Variable E : externals.

(** What a call with a non-empty clamped rectangle does. *)
Lemma blur_region_run bgr x y w h k img σ :
  heap σ !! bgr = Some img ->
  let x1 := Z.max 0 x in
  let y1 := Z.max 0 y in
  let x2 := Z.min (width img) (x + w) in
  let y2 := Z.min (height img) (y + h) in
  let roi := slice2 img y1 y2 x1 x2 in
  let σ1 := World (heap σ) (trace σ ++ [EvGaussianBlur y1 y2 x1 x2 (kernel_size k)]) in
  x1 < x2 -> y1 < y2 ->
  _blur_region E bgr x y w h k σ =
  match GaussianBlur E roi (kernel_size k) with
  | Raise e => (Raise e, σ1)
  | Ok blurred =>
      if same_shapeb blurred roi
      then (Ok tt, World (<[bgr := set_slice2 img y1 y2 x1 x2 blurred]> (heap σ)) (trace σ1))
      else (Raise ValueError, σ1)
  end.
Proof.
  intros Hb x1 y1 x2 y2 roi σ1 Hx Hy.
  unfold _blur_region, mbind, M_bind, deref. rewrite Hb. cbv zeta.
  fold x1 y1 x2 y2.
  replace ((x2 <=? x1) || (y2 <=? y1)) with false
    by (symmetry; apply orb_false_iff; split; apply Z.leb_gt; lia).
  unfold call. fold roi. fold σ1.
  destruct (GaussianBlur E roi (kernel_size k)) as [blurred|e]; [|done].
  by destruct (same_shapeb blurred roi).
Qed.

(** What a call with an empty clamped rectangle does: nothing. *)
Lemma blur_region_skip bgr x y w h k img σ :
  heap σ !! bgr = Some img ->
  Z.min (width img) (x + w) <= Z.max 0 x \/ Z.min (height img) (y + h) <= Z.max 0 y ->
  _blur_region E bgr x y w h k σ = (Ok tt, σ).
Proof.
  intros Hb Hempty.
  unfold _blur_region, mbind, M_bind, deref. rewrite Hb. cbv zeta.
  replace ((_ <=? _) || (_ <=? _)) with true; [done|].
  symmetry. apply orb_true_iff. rewrite !Z.leb_le. done.
Qed.

Lemma blur_region_keeps n bgr x y w h k :
  (n <= bgr)%nat -> respects (keeps n) (_blur_region E bgr x y w h k).
Proof. intros Hn. unfold _blur_region. repeat first [run_step | progress cbv zeta]; done. Qed.

(** Inside the slice the array reads what was assigned. *)
Lemma at2_set_slice2_inside (img blurred : image) y1 y2 x1 x2 (r c : nat) :
  0 <= y1 -> 0 <= x1 ->
  same_shape blurred (slice2 img y1 y2 x1 x2) ->
  y1 <= Z.of_nat r < y2 -> x1 <= Z.of_nat c < x2 ->
  at2 (set_slice2 img y1 y2 x1 x2 blurred) r c =
  at2 blurred (r - Z.to_nat y1) (c - Z.to_nat x1).
Proof.
  intros Hy Hx Hs Hr Hc. rewrite at2_set_slice2.
  rewrite (proj2 (in_span_spec y1 y2 r)), (proj2 (in_span_spec x1 x2 c)) by done.
  pose proof (at2_slice2 img y1 y2 x1 x2 (r - Z.to_nat y1) (c - Z.to_nat x1) Hy Hx) as Hroi.
  replace (Z.of_nat (r - Z.to_nat y1) <? y2 - y1) with true in Hroi
    by (symmetry; apply Z.ltb_lt; lia).
  replace (Z.of_nat (c - Z.to_nat x1) <? x2 - x1) with true in Hroi
    by (symmetry; apply Z.ltb_lt; lia).
  replace (Z.to_nat y1 + (r - Z.to_nat y1))%nat with r in Hroi by lia.
  replace (Z.to_nat x1 + (c - Z.to_nat x1))%nat with c in Hroi by lia.
  simpl in Hroi. destruct (at2 img r c) as [p|] eqn:Hp; simpl.
  - destruct (same_shape_at2 _ blurred _ _ (same_shape_sym _ _ Hs) (mk_is_Some _ _ Hroi))
      as [v ->]. done.
  - symmetry. eapply same_shape_at2_None; [apply same_shape_sym, Hs|done].
Qed.
End BlurRegion.

(** ** The Person Redactor: what its runs keep and emit *)

Section PersonRedactor.
Variable E : externals.

Lemma blur_face_keeps n out bs hit :
  (n <= out)%nat -> respects (keeps n) (blur_face E out bs hit).
Proof. intros Hn. destruct hit as [[[x y] w] h]. by apply blur_region_keeps. Qed.

Lemma blur_body_keeps n out scale bs hit :
  (n <= out)%nat -> respects (keeps n) (blur_body E out scale bs hit).
Proof.
  intros Hn. destruct hit as [[[[x y] w] h] wt]. unfold blur_body.
  destruct (Qltb wt 0.5); [apply respects_ret; apply _|].
  destruct (negb _); by apply blur_region_keeps.
Qed.

Lemma face_pass_keeps n out bs :
  (n <= out)%nat -> respects (keeps n) (face_pass E out bs).
Proof.
  intros Hn. unfold face_pass. repeat run_step. by apply blur_face_keeps.
Qed.

Lemma body_pass_keeps n out bs :
  (n <= out)%nat -> respects (keeps n) (body_pass E out bs).
Proof.
  intros Hn. unfold body_pass. repeat first [run_step | progress cbv zeta].
  all: by apply blur_body_keeps.
Qed.

Lemma blur_region_emits_person bgr x y w h k :
  respects (emits (fun ev => person_event ev = true /\ blur_kernel_is (kernel_size k) ev))
    (_blur_region E bgr x y w h k).
Proof. unfold _blur_region. repeat first [run_step | progress cbv zeta]; done. Qed.

Lemma blur_face_emits out bs hit :
  respects (emits (fun ev => person_event ev = true /\ blur_kernel_is (kernel_size bs) ev))
    (blur_face E out bs hit).
Proof. destruct hit as [[[x y] w] h]. apply blur_region_emits_person. Qed.

Lemma blur_body_emits out scale bs hit :
  respects (emits (fun ev => person_event ev = true /\ blur_kernel_is (kernel_size bs) ev))
    (blur_body E out scale bs hit).
Proof.
  destruct hit as [[[[x y] w] h] wt]. unfold blur_body.
  destruct (Qltb wt 0.5); [apply respects_ret; apply _|].
  destruct (negb _); apply blur_region_emits_person.
Qed.

Lemma scrub_people_emits bgr bs db :
  respects (emits (fun ev => person_event ev = true /\ blur_kernel_is (kernel_size bs) ev))
    (scrub_people E bgr bs db).
Proof.
  unfold scrub_people, copy, face_pass, body_pass.
  repeat first [run_step | progress cbv zeta]; try done.
  all: first [apply blur_face_emits | apply blur_body_emits].
Qed.
End PersonRedactor.

Lemma copy_run (bgr : loc) (σ : world) :
  copy bgr σ =
  match heap σ !! bgr with
  | Some img => (Ok (length (heap σ)), World (heap σ ++ [img]) (trace σ))
  | None => (Raise Unallocated, σ)
  end.
Proof. unfold copy, mbind, M_bind, deref. by destruct (heap σ !! bgr). Qed.

(** The effect of a call with a non-empty clamped rectangle. *)
Lemma blur_region_effect (E : externals) (bgr : loc) (x y w h k : Z)
    (img : image) (σ : world) :
  heap σ !! bgr = Some img ->
  let x1 := Z.max 0 x in
  let y1 := Z.max 0 y in
  let x2 := Z.min (width img) (x + w) in
  let y2 := Z.min (height img) (y + h) in
  let kk := Z.max 3 (Z.lor k 1) in
  let run := _blur_region E bgr x y w h k σ in
  x1 < x2 -> y1 < y2 ->
  trace run.2 = trace σ ++ [EvGaussianBlur y1 y2 x1 x2 kk] /\
  (forall l, l <> bgr -> heap run.2 !! l = heap σ !! l) /\
  exists img',
    heap run.2 !! bgr = Some img' /\ same_shape img' img /\
    (forall r c : nat,
       ~ (y1 <= Z.of_nat r < y2 /\ x1 <= Z.of_nat c < x2) ->
       at2 img' r c = at2 img r c) /\
    (forall blurred,
       GaussianBlur E (slice2 img y1 y2 x1 x2) kk = Ok blurred ->
       same_shape blurred (slice2 img y1 y2 x1 x2) ->
       run.1 = Ok tt /\
       forall r c : nat,
         y1 <= Z.of_nat r < y2 -> x1 <= Z.of_nat c < x2 ->
         at2 img' r c = at2 blurred (r - Z.to_nat y1) (c - Z.to_nat x1)).
Proof.
  intros Hb x1 y1 x2 y2 kk run Hx Hy. subst run.
  rewrite (blur_region_run E bgr x y w h k img σ Hb Hx Hy).
  fold x1 y1 x2 y2. change (kernel_size k) with kk.
  set (roi := slice2 img y1 y2 x1 x2).
  assert (Hsame : exists img0, heap σ !! bgr = Some img0 /\ same_shape img0 img /\
            (forall r c : nat, at2 img0 r c = at2 img r c))
    by (exists img; done).
  destruct (GaussianBlur E roi kk) as [blurred|e] eqn:HG; simpl.
  - destruct (same_shapeb blurred roi) eqn:Hshape; simpl.
    + apply bool_decide_eq_true in Hshape.
      split; [done|]. split; [intros l Hl; by apply list_lookup_insert_ne|].
      exists (set_slice2 img y1 y2 x1 x2 blurred).
      split; [apply list_lookup_insert_eq; by eapply lookup_lt_Some|].
      split; [apply set_slice2_shape|]. split.
      * intros r c Hnot. rewrite at2_set_slice2.
        destruct (in_span y1 y2 r && in_span x1 x2 c) eqn:Hin.
        -- apply andb_true_iff in Hin as [?%in_span_spec ?%in_span_spec]. tauto.
        -- by destruct (at2 img r c).
      * intros blurred' [= <-] _. split; [done|]. intros r c Hr Hc.
        apply at2_set_slice2_inside; [lia|lia|done|done|done].
    + split; [done|]. split; [done|].
      destruct Hsame as (img0 & H0 & Hs0 & Hr0). exists img0.
      split; [done|]. split; [done|]. split; [auto|].
      intros blurred' [= <-] Hs. apply bool_decide_eq_false in Hshape. done.
  - split; [done|]. split; [done|].
    destruct Hsame as (img0 & H0 & Hs0 & Hr0). exists img0.
    split; [done|]. split; [done|]. split; [auto|]. intros blurred' [=].
Qed.

(** ** The mask of the Text Redactor *)

Lemma at2_rectangle (m : mask_image) x1 y1 x2 y2 color (r c : nat) :
  at2 (rectangle m x1 y1 x2 y2 color) r c =
  (fun v => if between y1 y2 r && between x1 x2 c then color else v) <$> at2 m r c.
Proof.
  unfold at2, rectangle. rewrite list_lookup_imap.
  destruct (m !! r) as [row|]; simpl; [|done].
  destruct (between y1 y2 r); simpl; [|by destruct (row !! c)].
  rewrite list_lookup_imap. by destruct (row !! c).
Qed.

Lemma rectangle_shape (m : mask_image) x1 y1 x2 y2 color :
  same_shape (rectangle m x1 y1 x2 y2 color) m.
Proof.
  unfold same_shape, rectangle. apply list_eq; intros r.
  rewrite !list_lookup_fmap, list_lookup_imap.
  destruct (m !! r) as [row|]; simpl; [|done].
  destruct (between y1 y2 r); [|done]. by rewrite length_imap.
Qed.

Lemma zeros_like_width (g : gray_image) :
  width (zeros_like g) = width g /\ height (zeros_like g) = height g.
Proof.
  unfold width, height, zeros_like. rewrite length_replicate. split; [|done].
  destruct g as [|row g]; simpl; [done|]. by rewrite length_replicate.
Qed.

Lemma at2_zeros_like (g : gray_image) (r c : nat) v :
  at2 (zeros_like g) r c = Some v -> v = 0.
Proof.
  unfold at2, zeros_like. intros H.
  destruct (replicate _ _ !! r) as [row|] eqn:Hr; simplify_eq/=.
  apply lookup_replicate in Hr as [-> _].
  by apply lookup_replicate in H as [-> _].
Qed.

Lemma foldr_max_zeros (l : list Z) : Forall (eq 0) l -> foldr Z.max 0 l = 0.
Proof. induction 1 as [|x l <- _ IH]; simpl; [done|]. rewrite IH. done. Qed.

Lemma array_max_zeros (g : gray_image) :
  0 < height g -> 0 < width g -> array_max (zeros_like g) = Some 0.
Proof.
  unfold height, width, zeros_like, array_max. intros Hh Hw.
  destruct (length g) as [|n]; [lia|].
  destruct (length (default [] (head g))) as [|m]; [lia|]. simpl.
  f_equal. apply foldr_max_zeros. apply Forall_app. split.
  - apply Forall_replicate. done.
  - apply Forall_concat. apply Forall_replicate.
    apply (Forall_replicate (eq 0) (S m) 0). done.
Qed.

(** A hit that the filter drops leaves the mask as it is. *)
Lemma paint_hit_dropped data i mask :
  hit_kept data i = Ok false -> paint_hit data i mask = Ok mask.
Proof. unfold paint_hit. by intros ->. Qed.

(** A hit that the filter keeps paints the rectangle of its box. *)
Lemma paint_hit_kept data i mask x y w h :
  hit_kept data i = Ok true -> hit_box data i = Ok (x, y, w, h) ->
  paint_hit data i mask =
  let '(x2, y2, x3, y3) := text_corners (width mask) (height mask) x y w h in
  Ok (rectangle mask x2 y2 x3 y3 255).
Proof. unfold paint_hit. intros -> ->. done. Qed.

(** Every step keeps the shape of the mask and marks only pixels of a kept
    hit's rectangle. *)
Lemma paint_hit_marks data i mask mask' :
  paint_hit data i mask = Ok mask' ->
  same_shape mask' mask /\
  forall r c v, at2 mask' r c = Some v ->
    at2 mask r c = Some v \/
    (exists b, hit_kept data i = Ok true /\ hit_box data i = Ok b /\
               in_text_box (width mask) (height mask) b r c = true).
Proof.
  unfold paint_hit. destruct (hit_kept data i) as [[|]|e] eqn:Hk; simpl; [| |done].
  - destruct (hit_box data i) as [[[[x y] w] h]|e] eqn:Hbox; simpl; [|done].
    intros [= <-]. split; [apply rectangle_shape|].
    intros r c v. rewrite at2_rectangle.
    destruct (at2 mask r c) as [v0|]; simpl; [|done].
    destruct (between _ _ r && between _ _ c) eqn:Hin; intros [= <-]; [|by left].
    right. exists (x, y, w, h). split; [done|]. split; [done|]. exact Hin.
  - intros [= <-]. split; [done|]. by left.
Qed.

Lemma fold_paint_marks data l mask mask' :
  fold_result (paint_hit data) l mask = Ok mask' ->
  same_shape mask' mask /\
  forall r c v, at2 mask' r c = Some v ->
    at2 mask r c = Some v \/ in_text_boxes data (width mask) (height mask) r c.
Proof.
  revert mask. induction l as [|i l IH]; intros mask; simpl.
  - intros [= <-]. split; [done|]. by left.
  - destruct (paint_hit data i mask) as [m1|e] eqn:H1; simpl; [|done].
    intros H2. apply paint_hit_marks in H1 as [Hs1 Hm1].
    apply IH in H2 as [Hs2 Hm2].
    destruct (same_shape_width _ _ Hs1) as [Hw Hh].
    split; [unfold same_shape in *; congruence|].
    intros r c v Hv. destruct (Hm2 r c v Hv) as [H|H].
    + destruct (Hm1 r c v H) as [?|(b & ? & ? & ?)]; [by left|].
      right. exists i, b. done.
    + right. by rewrite <- Hw, <- Hh.
Qed.

(** The mask marks only pixels of the painted region. *)
Lemma text_mask_marks g data mask r c v :
  text_mask g data = Ok mask -> at2 mask r c = Some v -> v <> 0 ->
  in_text_boxes data (width g) (height g) r c.
Proof.
  unfold text_mask. intros Hf Hv Hne.
  apply fold_paint_marks in Hf as [_ Hm].
  destruct (zeros_like_width g) as [<- <-].
  destruct (Hm r c v Hv) as [H0|H]; [|done].
  by apply at2_zeros_like in H0.
Qed.


(** ** The Text Redactor *)

Section TextRedactor.
Variable E : externals.

(** The run of [scrub_text] once the detection has produced its mask. *)
Lemma scrub_text_run bgr σ img rgb g0 g data mask :
  heap σ !! bgr = Some img ->
  cvtColor E img = Ok rgb ->
  cvtColor_GRAY E img = Ok g0 ->
  bilateralFilter E g0 7 50 50 = Ok g ->
  image_to_data E rgb = Ok data ->
  text_mask g data = Ok mask ->
  let t := [EvCvtColor; EvCvtGray; EvBilateral; EvImageToData] in
  scrub_text E bgr σ =
  match array_max mask with
  | None => (Raise ValueError, World (heap σ) (trace σ ++ t))
  | Some mx =>
      if mx =? 0 then (Ok bgr, World (heap σ) (trace σ ++ t))
      else match inpaint E img mask 3 with
           | Ok inpainted =>
               (Ok (length (heap σ)),
                World (heap σ ++ [inpainted]) (trace σ ++ t ++ [EvInpaint]))
           | Raise e => (Raise e, World (heap σ) (trace σ ++ t ++ [EvInpaint]))
           end
  end.
Proof.
  intros Hb Hrgb Hg0 Hg Hdata Hmask t.
  unfold scrub_text, mbind, M_bind, deref, call, lift, alloc, raise.
  rewrite Hb, Hrgb, Hg0, Hg, Hdata, Hmask. simpl.
  destruct (array_max mask) as [mx|]; simpl; rewrite <- ?app_assoc; [|reflexivity].
  destruct (mx =? 0); simpl; rewrite <- ?app_assoc; [reflexivity|].
  destruct (inpaint E img mask 3); simpl; rewrite <- ?app_assoc; reflexivity.
Qed.

(** A run of [scrub_text] that returns has passed every step. *)
Lemma scrub_text_Ok_inv bgr σ out σ' :
  scrub_text E bgr σ = (Ok out, σ') ->
  exists img rgb g0 g data mask,
    heap σ !! bgr = Some img /\
    cvtColor E img = Ok rgb /\
    cvtColor_GRAY E img = Ok g0 /\
    bilateralFilter E g0 7 50 50 = Ok g /\
    image_to_data E rgb = Ok data /\
    text_mask g data = Ok mask.
Proof.
  unfold scrub_text, mbind, M_bind, deref, call, lift.
  destruct (heap σ !! bgr) as [img|]; [|done].
  destruct (cvtColor E img) as [rgb|] eqn:Hrgb; [|done].
  destruct (cvtColor_GRAY E img) as [g0|] eqn:Hg0; [|done].
  destruct (bilateralFilter E g0 7 50 50) as [g|] eqn:Hg; [|done].
  destruct (image_to_data E rgb) as [data|] eqn:Hdata; [|done].
  destruct (text_mask g data) as [mask|] eqn:Hmask; [|done].
  intros _. by exists img, rgb, g0, g, data, mask.
Qed.

Lemma scrub_text_emits bgr :
  respects (emits (fun ev => text_event ev = true)) (scrub_text E bgr).
Proof. unfold scrub_text. repeat run_step; done. Qed.
End TextRedactor.

(** ** The filter on the hits *)

Lemma truthy_nonempty (s : pystr) : truthy s = true <-> s <> [].
Proof. destruct s; simpl; split; done. Qed.

Lemma Qltb_ge (a b : Q) : Qltb a b = false <-> (b <= a)%Q.
Proof.
  unfold Qltb. rewrite negb_false_iff. apply Qle_bool_iff.
Qed.

(** A hit passes the filter exactly when its stripped text is not empty and
    its confidence, read as a float ([-1] when [float()] raises), is not
    below 60. *)
Lemma hit_kept_true data i :
  hit_kept data i = Ok true <->
  exists t c,
    default [] (d_text data) !! i = Some t /\
    default [ConfNumber (-1)] (d_conf data) !! i = Some c /\
    strip (default [] t) <> [] /\ float_lt (conf_float c) 60 = false.
Proof.
  unfold hit_kept, getitem, index, mbind, result_bind, mret, result_ret.
  destruct (d_text data) as [text|]; simpl.
  2: { split; [done|]. by intros (t & c & ? & _). }
  destruct (text !! i) as [t|]; simpl.
  2: { split; [done|]. by intros (t & c & ? & _). }
  destruct (default [ConfNumber (-1)] (d_conf data) !! i) as [c|]; simpl.
  2: { split; [done|]. by intros (t' & c & _ & ? & _). }
  split.
  - intros [= [Ht Hc]%andb_true_iff]. exists t, c.
    apply truthy_nonempty in Ht. apply negb_true_iff in Hc. done.
  - intros (t' & c' & [= <-] & [= <-] & Ht & Hc). f_equal.
    apply andb_true_iff. split; [by apply truthy_nonempty|].
    by apply negb_true_iff.
Qed.

(** A hit whose text and confidence can be read and that fails the test is
    dropped. *)
Lemma hit_kept_false data i t c :
  default [] (d_text data) !! i = Some t ->
  default [ConfNumber (-1)] (d_conf data) !! i = Some c ->
  ~ (strip (default [] t) <> [] /\ float_lt (conf_float c) 60 = false) ->
  hit_kept data i = Ok false.
Proof.
  intros Ht Hc Hno.
  destruct (hit_kept data i) as [[|]|e] eqn:Hk.
  - apply hit_kept_true in Hk as (t' & c' & Ht' & Hc' & H1 & H2).
    simplify_eq. tauto.
  - done.
  - unfold hit_kept, getitem, index, mbind, result_bind in Hk.
    destruct (d_text data) as [text|]; simpl in *; [|done].
    rewrite Ht in Hk. simpl in Hk. rewrite Hc in Hk. done.
Qed.

(** A run of [scrub_text] whose table cannot be read: the error comes
    after the detection and before any inpainting. *)
Lemma scrub_text_table_error (E : externals) bgr σ img rgb g0 g data e :
  heap σ !! bgr = Some img ->
  cvtColor E img = Ok rgb ->
  cvtColor_GRAY E img = Ok g0 ->
  bilateralFilter E g0 7 50 50 = Ok g ->
  image_to_data E rgb = Ok data ->
  text_mask g data = Raise e ->
  scrub_text E bgr σ =
  (Raise e, World (heap σ) (trace σ ++ [EvCvtColor; EvCvtGray; EvBilateral; EvImageToData])).
Proof.
  intros Hb Hrgb Hg0 Hg Hdata Hmask.
  unfold scrub_text, mbind, M_bind, deref, call, lift.
  rewrite Hb, Hrgb, Hg0, Hg, Hdata, Hmask. simpl. by rewrite <- !app_assoc.
Qed.

(** The loop stops at the first hit that raises. *)
Lemma fold_paint_raises data (n i : nat) (m : mask_image) e :
  (i < n)%nat ->
  (forall j, (j < i)%nat -> forall m0, exists m1, paint_hit data j m0 = Ok m1) ->
  (forall m0, paint_hit data i m0 = Raise e) ->
  fold_result (paint_hit data) (seq 0 n) m = Raise e.
Proof.
  intros Hi Hbefore Hraise.
  replace n with (i + S (n - S i))%nat by lia.
  rewrite seq_app. simpl.
  assert (Hpre : forall l s m0,
            (forall j, j ∈ l -> forall m0, exists m1, paint_hit data j m0 = Ok m1) ->
            exists m1, fold_result (paint_hit data) (l ++ s) m0
                       = fold_result (paint_hit data) s m1).
  { intros l s. induction l as [|j l IH]; intros m0 Hall; simpl; [eauto|].
    destruct (Hall j ltac:(left) m0) as [m1 ->]. simpl.
    apply IH. intros k Hk. apply Hall. by right. }
  destruct (Hpre (seq 0 i) (i :: seq (S i) (n - S i)) m) as [m1 ->].
  - intros j Hj. apply elem_of_seq in Hj. apply Hbefore. lia.
  - simpl. by rewrite Hraise.
Qed.

(** ** The orchestrator and the endpoint *)

Lemma respects_weaken {A} (R R' : relation world) (m : M A) :
  (forall w w', R w w' -> R' w w') -> respects R m -> respects R' m.
Proof. intros HRR' Hm w r w' Hrun. eauto. Qed.

Section Orchestrator.
Variable E : externals.

Lemma pil_to_bgr_emits pil :
  respects (emits (fun ev => decode_event ev = true)) (_pil_to_bgr E pil).
Proof. unfold _pil_to_bgr. repeat run_step; done. Qed.



End Orchestrator.

(** ** Runs that return *)

Lemma for_each_Ok {A} (body : A -> M unit) (l : list A) (σ σ' : world) :
  for_each l body σ = (Ok tt, σ') <-> loop_runs body l σ σ'.
Proof.
  revert σ. induction l as [|a l IH]; intros σ; simpl.
  - split; [intros [= <-]; constructor|by inversion 1].
  - split.
    + intros Hrun. apply bind_Ok_inv in Hrun as ([] & σ1 & Ha & Hl).
      econstructor; [done|]. by apply IH.
    + inversion 1 as [|? ? ? σ1 ? Ha Hl]; subst.
      rewrite (bind_Ok _ _ _ _ _ Ha). by apply IH.
Qed.

Lemma call_inv {A} ev (r : result A) σ x σ' :
  call ev r σ = (x, σ') -> x = r /\ σ' = World (heap σ) (trace σ ++ [ev]).
Proof. by intros [= <- <-]. Qed.

Lemma deref_Ok_inv l σ a σ' :
  deref l σ = (Ok a, σ') -> heap σ !! l = Some a /\ σ' = σ.
Proof. unfold deref. destruct (heap σ !! l); by intros [= <- <-]. Qed.

(** Membership in a list that is given element by element. *)
Ltac find_elem :=
  simpl; repeat first [apply list_elem_of_here | apply list_elem_of_further].

Section Inversion.
Variable E : externals.

Lemma face_pass_Ok_inv out bs σ σ' :
  face_pass E out bs σ = (Ok tt, σ') ->
  exists img g faces,
    heap σ !! out = Some img /\
    cvtColor_GRAY E img = Ok g /\
    face_detectMultiScale E g = Ok faces /\
    loop_runs (blur_face E out bs) faces
      (World (heap σ) (trace σ ++ [EvCvtGray; EvFaceDetect])) σ'.
Proof.
  unfold face_pass. intros Hrun.
  apply bind_Ok_inv in Hrun as (img & σ1 & [Hb ->]%deref_Ok_inv & Hrun).
  apply bind_Ok_inv in Hrun as (g & σ2 & [Hg ->]%call_inv & Hrun).
  apply bind_Ok_inv in Hrun as (faces & σ3 & [Hf ->]%call_inv & Hrun).
  apply for_each_Ok in Hrun. simpl in Hrun. rewrite <- app_assoc in Hrun.
  by exists img, g, faces.
Qed.

Lemma body_pass_Ok_inv out bs σ σ' :
  body_pass E out bs σ = (Ok tt, σ') ->
  exists img small rects weights t,
    heap σ !! out = Some img /\
    (if negb (Qeq_bool (body_scale img) 1.0)
     then resize E img (body_scale img) = Ok small /\ t = [EvResize; EvBodyDetect]
     else small = img /\ t = [EvBodyDetect]) /\
    hog_detectMultiScale E small = Ok (rects, weights) /\
    loop_runs (blur_body E out (body_scale img) bs) (zip rects weights)
      (World (heap σ) (trace σ ++ t)) σ'.
Proof.
  unfold body_pass. intros Hrun.
  apply bind_Ok_inv in Hrun as (img & σ1 & [Hb ->]%deref_Ok_inv & Hrun).
  cbv zeta in Hrun.
  apply bind_Ok_inv in Hrun as (small & σ2 & Hsmall & Hrun).
  apply bind_Ok_inv in Hrun as ([rects weights] & σ3 & [Hd ->]%call_inv & Hrun).
  apply for_each_Ok in Hrun. simpl in Hrun.
  destruct (negb (Qeq_bool (body_scale img) 1.0)) eqn:Hs.
  - apply call_inv in Hsmall as [Hr ->]. simpl in Hrun. rewrite <- app_assoc in Hrun.
    exists img, small, rects, weights, [EvResize; EvBodyDetect]. by rewrite Hs.
  - injection Hsmall as <- <-.
    exists img, img, rects, weights, [EvBodyDetect]. by rewrite Hs.
Qed.

Lemma scrub_people_Ok_inv bgr bs db σ out σ' :
  scrub_people E bgr bs db σ = (Ok out, σ') ->
  exists img σ2,
    heap σ !! bgr = Some img /\ out = length (heap σ) /\
    face_pass E out bs (World (heap σ ++ [img]) (trace σ)) = (Ok tt, σ2) /\
    (if db then body_pass E out bs σ2 else (Ok tt, σ2)) = (Ok tt, σ').
Proof.
  unfold scrub_people. intros Hrun.
  apply bind_Ok_inv in Hrun as (out' & σ1 & Hcopy & Hrun).
  rewrite copy_run in Hcopy.
  destruct (heap σ !! bgr) as [img|]; [|done]. injection Hcopy as <- <-.
  apply bind_Ok_inv in Hrun as ([] & σ2 & Hface & Hrun).
  apply bind_Ok_inv in Hrun as ([] & σ3 & Hbody & Hrun).
  injection Hrun as <- <-.
  exists img, σ2. split; [done|]. split; [done|]. split; [done|].
  by destruct db.
Qed.

(** The trace of the text stage. *)
Lemma scrub_text_stage bgr σ r σ' :
  scrub_text E bgr σ = (r, σ') ->
  exists t, trace σ' = trace σ ++ t /\
    Forall (fun ev => text_event ev = true) t /\
    (forall b, r = Ok b -> EvImageToData ∈ t).
Proof.
  intros Hrun. destruct (scrub_text_emits E bgr _ _ _ Hrun) as (t & Ht & HF).
  exists t. split; [done|]. split; [done|]. intros b ->.
  destruct (scrub_text_Ok_inv E _ _ _ _ Hrun)
    as (img & rgb & g0 & g & data & mask & Hb & Hrgb & Hg0 & Hg & Hdata & Hmask).
  rewrite (scrub_text_run E bgr σ img rgb g0 g data mask) in Hrun by done.
  destruct (array_max mask) as [mx|]; [|done].
  destruct (mx =? 0).
  - injection Hrun as _ <-. simpl in Ht. apply app_inv_head in Ht as <-.
    find_elem.
  - destruct (inpaint E img mask 3); [|done].
    injection Hrun as _ <-. simpl in Ht. apply app_inv_head in Ht as <-.
    find_elem.
Qed.

(** The trace of the person stage. *)
Lemma scrub_people_stage bgr bs db σ r σ' :
  scrub_people E bgr bs db σ = (r, σ') ->
  exists t, trace σ' = trace σ ++ t /\
    Forall (fun ev => person_event ev = true) t /\
    (forall b, r = Ok b -> EvFaceDetect ∈ t).
Proof.
  intros Hrun. destruct (scrub_people_emits E bgr bs db _ _ _ Hrun) as (t & Ht & HF).
  exists t. split; [done|]. split; [eapply Forall_impl; [done|by intros ev [? _]]|].
  intros b ->.
  apply scrub_people_Ok_inv in Hrun as (img & σ2 & _ & _ & Hface & Hbody).
  assert (Hext : exists t', trace σ' = trace σ2 ++ t').
  { destruct db.
    - assert (Hr : respects (emits (fun _ => True)) (body_pass E b bs)).
      { unfold body_pass. repeat first [run_step | progress cbv zeta]; try done.
        eapply respects_weaken; [|apply (blur_body_emits E)].
        intros w w'. by apply emits_weaken. }
      destruct (Hr _ _ _ Hbody) as (t' & ? & _). eauto.
    - injection Hbody as <-. exists []. by rewrite app_nil_r. }
  destruct Hext as (t' & Ht').
  apply face_pass_Ok_inv in Hface as (_ & g & faces & _ & _ & _ & Hloop).
  apply for_each_Ok in Hloop.
  destruct (respects_for_each _ faces _ (blur_face_emits E b bs) _ _ _ Hloop)
    as (t'' & Ht'' & _).
  simpl in Ht''. rewrite Ht', Ht'', <- !app_assoc in Ht.
  apply app_inv_head in Ht as <-. find_elem.
Qed.
End Inversion.

(** The calls of a run of [process_image], stage by stage. *)
Lemma process_image_trace (E : externals) (pil : PIL) (opts : Options) (σ : world) :
  let run := process_image E pil opts σ in
  (exists t_dec t_text t_people,
     trace run.2 = trace σ ++ t_dec ++ t_text ++ t_people /\
     Forall (fun ev => decode_event ev = true) t_dec /\
     Forall (fun ev => text_event ev = true) t_text /\
     Forall (fun ev => person_event ev = true) t_people /\
     (remove_text opts = false -> t_text = []) /\
     (blur_people opts = false -> t_people = []) /\
     (forall b, run.1 = Ok b ->
        (remove_text opts = true -> EvImageToData ∈ t_text) /\
        (blur_people opts = true -> EvFaceDetect ∈ t_people))) /\
  (remove_text opts = false -> blur_people opts = false ->
   run = _pil_to_bgr E pil σ).
Proof.
  intros run. subst run. unfold process_image.
  destruct (_pil_to_bgr E pil σ) as [[b0|e] σ0] eqn:H0.
  2: { rewrite (bind_Raise _ _ _ _ _ H0). split; [|done].
       destruct (pil_to_bgr_emits E pil _ _ _ H0) as (t0 & Ht0 & HF0).
       exists t0, [], []. rewrite !app_nil_r. by repeat split. }
  rewrite (bind_Ok _ _ _ _ _ H0).
  destruct (pil_to_bgr_emits E pil _ _ _ H0) as (t0 & Ht0 & HF0).
  set (text_stage := if remove_text opts then scrub_text E b0 else mret b0).
  destruct (text_stage σ0) as [r1 σ1] eqn:H1.
  assert (Htext : exists t1, trace σ1 = trace σ0 ++ t1 /\
            Forall (fun ev => text_event ev = true) t1 /\
            (remove_text opts = false -> t1 = [] /\ r1 = Ok b0 /\ σ1 = σ0) /\
            (forall b, r1 = Ok b -> remove_text opts = true -> EvImageToData ∈ t1)).
  { subst text_stage. destruct (remove_text opts).
    - destruct (scrub_text_stage E _ _ _ _ H1) as (t1 & ? & ? & ?).
      exists t1. repeat split; eauto; done.
    - injection H1 as <- <-. exists []. rewrite app_nil_r. by repeat split. }
  destruct Htext as (t1 & Ht1 & HF1 & Hoff1 & Hon1).
  destruct r1 as [b1|e].
  2: { rewrite (bind_Raise _ _ _ _ _ H1). split.
       - exists t0, t1, []. rewrite app_nil_r. simpl.
         split; [by rewrite Ht1, Ht0, app_assoc|]. repeat split; try done.
         intros Hoff. by destruct (Hoff1 Hoff) as (_ & ? & _).
       - intros Hoff. by destruct (Hoff1 Hoff) as (_ & ? & _). }
  rewrite (bind_Ok _ _ _ _ _ H1). rewrite bind_ret_r.
  set (people_stage := if blur_people opts then _ else _).
  destruct (people_stage σ1) as [r2 σ2] eqn:H2.
  assert (Hpeople : exists t2, trace σ2 = trace σ1 ++ t2 /\
            Forall (fun ev => person_event ev = true) t2 /\
            (blur_people opts = false -> t2 = [] /\ r2 = Ok b1 /\ σ2 = σ1) /\
            (forall b, r2 = Ok b -> blur_people opts = true -> EvFaceDetect ∈ t2)).
  { subst people_stage. destruct (blur_people opts).
    - destruct (scrub_people_stage E _ _ _ _ _ _ H2) as (t2 & ? & ? & ?).
      exists t2. repeat split; eauto; done.
    - injection H2 as <- <-. exists []. rewrite app_nil_r. by repeat split. }
  destruct Hpeople as (t2 & Ht2 & HF2 & Hoff2 & Hon2).
  simpl. split.
  - exists t0, t1, t2. split; [by rewrite Ht2, Ht1, Ht0, <- !app_assoc|].
    repeat split; try done.
    + intros Hoff. by destruct (Hoff1 Hoff).
    + intros Hoff. by destruct (Hoff2 Hoff).
    + eauto.
    + eauto.
  - intros Hoff Hoff'.
    destruct (Hoff1 Hoff) as (_ & [= ->] & ->).
    destruct (Hoff2 Hoff') as (_ & -> & ->). done.
Qed.

(** A run of [process_image] that returns has chained its stages. *)
Lemma process_image_Ok_inv (E : externals) (pil : PIL) (opts : Options)
    (σ : world) (b : loc) (σ' : world) :
  process_image E pil opts σ = (Ok b, σ') ->
  exists b0 σ0 b1 σ1,
    _pil_to_bgr E pil σ = (Ok b0, σ0) /\
    (if remove_text opts then scrub_text E b0 σ0 else (Ok b0, σ0)) = (Ok b1, σ1) /\
    (if blur_people opts
     then scrub_people E b1 (blur_strength opts) (detect_bodies opts) σ1
     else (Ok b1, σ1)) = (Ok b, σ').
Proof.
  unfold process_image. intros Hrun.
  apply bind_Ok_inv in Hrun as (b0 & σ0 & H0 & Hrun).
  apply bind_Ok_inv in Hrun as (b1 & σ1 & H1 & Hrun).
  rewrite bind_ret_r in Hrun.
  exists b0, σ0, b1, σ1. split; [done|].
  split; [by destruct (remove_text opts)|by destruct (blur_people opts)].
Qed.

(** ** The concrete environment meets the contracts *)

Lemma blacken_only_masked data faces bodies :
  inpaint_only_masked (Demo.env data faces bodies).
Proof.
  intros img mask radius out [= <-] r c Hzero. unfold at2 at 1 3.
  rewrite list_lookup_imap. destruct (img !! r) as [row|]; simpl; [|done].
  rewrite list_lookup_imap. destruct (row !! c) as [p|]; simpl; [|done].
  destruct (at2 mask r c) as [v|]; [|done].
  by rewrite (Hzero v eq_refl).
Qed.

Lemma to_gray_keeps_shape data faces bodies :
  gray_keeps_shape (Demo.env data faces bodies).
Proof.
  split.
  - intros img g [= <-]. unfold width, height. rewrite length_fmap. split; [|done].
    destruct img as [|row img]; simpl; [done|]. by rewrite length_fmap.
  - by intros g d sc ss g' [= <-].
Qed.

(** * The properties of the specification *)

(** ** Text Redactor: frame *)

(** C1 (as the code has it). [scrub_text] changes only pixels of the
    painted mask region, the union of the rectangles that line 101 paints
    for the hits that pass the filter: for each of them the rectangle
    between the corners [(x2, y2)] and [(x2 + w2, y2 + h2)] of
    [text_corners], both corners included.  When the inpainter changes only
    pixels that the mask marks (and the mask has the frame's height and
    width), every pixel outside that union reads in the returned buffer as
    in the input buffer.  The union contains the padded, clamped boxes and
    is larger than they are. *)
Theorem scrub_text_frame (E : externals) (bgr : loc) (img : image)
    (σ : world) (out : loc) (σ' : world) :
  inpaint_only_masked E ->
  gray_keeps_shape E ->
  heap σ !! bgr = Some img ->
  scrub_text E bgr σ = (Ok out, σ') ->
  exists rgb data img',
    cvtColor E img = Ok rgb /\
    image_to_data E rgb = Ok data /\
    heap σ' !! out = Some img' /\
    forall r c : nat,
      ~ in_text_boxes data (width img) (height img) r c ->
      at2 img' r c = at2 img r c.
Proof.
  intros Hinp [Hgray Hbil] Hb Hrun.
  destruct (scrub_text_Ok_inv E bgr σ out σ' Hrun)
    as (img0 & rgb & g0 & g & data & mask & Hb0 & Hrgb & Hg0 & Hg & Hdata & Hmask).
  assert (img0 = img) as -> by congruence.
  rewrite (scrub_text_run E bgr σ img rgb g0 g data mask) in Hrun by done.
  exists rgb, data.
  destruct (array_max mask) as [mx|]; [|done].
  destruct (mx =? 0).
  - injection Hrun as <- <-. exists img. done.
  - destruct (inpaint E img mask 3) as [inpainted|e] eqn:Hi; [|done].
    injection Hrun as <- <-. exists inpainted. simpl.
    split; [done|]. split; [done|]. split; [apply list_lookup_middle; done|].
    intros r c Hout. eapply Hinp; [done|].
    intros v Hv. destruct (Z.eq_dec v 0) as [|Hne]; [done|].
    destruct Hout.
    pose proof (text_mask_marks g data mask r c v Hmask Hv Hne) as Hin.
    destruct (Hgray _ _ Hg0) as [Hw0 Hh0].
    destruct (Hbil _ _ _ _ _ Hg) as [Hw Hh].
    by rewrite <- Hw0, <- Hh0, <- Hw, <- Hh.
Qed.

(** C1, against the specification's wording: on the frame of 100 x 100 with
    the kept box (20, 20, 40, 40), whose margin is 6 rounded or truncated,
    the pixel at row 30, column 66 lies in no padded, clamped box of the
    table (the box of that hit ends at column 65), and an inpainter that
    meets its contract changes it from (10, 20, 30) to (0, 0, 0): column 66
    is the far corner, which [cv2.rectangle] fills. *)
Lemma scrub_text_frame_not_as_stated :
  inpaint_only_masked Demo.E /\
  gray_keeps_shape Demo.E /\
  ~ in_spec_text_boxes Demo.table 100 100 30 66 /\
  in_text_boxes Demo.table 100 100 30 66 /\
  let run := scrub_text Demo.E 0%nat (Demo.world_of 100 100) in
  run.1 = Ok 1%nat /\
  at2 (Demo.frame 100 100) 30 66 = Some (10, 20, 30) /\
  heap run.2 !! 1%nat ≫= (fun img' => at2 img' 30 66) = Some (0, 0, 0).
Proof.
  split; [apply blacken_only_masked|].
  split; [apply to_gray_keeps_shape|].
  split; [|split].
  - intros (i & b & Hb & Hin).
    destruct i as [|[|[|[|i]]]]; vm_compute in Hb; try discriminate Hb;
      injection Hb as <-; vm_compute in Hin; discriminate Hin.
  - exists 0%nat, (20, 20, 40, 40). vm_compute. done.
  - vm_compute. done.
Qed.

(** C1 on a frame of 100 x 100 with one kept hit: the pixel (67, 67), outside
    the painted rectangle, is as in the input. *)
Lemma scrub_text_frame_witness :
  exists img',
    heap (scrub_text Demo.E 0%nat (Demo.world_of 100 100)).2 !! 1%nat = Some img' /\
    at2 img' 67 67 = at2 (Demo.frame 100 100) 67 67.
Proof.
  destruct (scrub_text_frame Demo.E 0%nat (Demo.frame 100 100) (Demo.world_of 100 100)
              1%nat (scrub_text Demo.E 0%nat (Demo.world_of 100 100)).2
              (blacken_only_masked _ _ _) (to_gray_keeps_shape _ _ _) eq_refl)
    as (rgb & data & img' & Hrgb & Hdata & Hi & Hout).
  - vm_compute. reflexivity.
  - exists img'. split; [exact Hi|]. apply Hout.
    injection Hdata as <-.
    intros (i & b & Hk & Hb & Hin).
    destruct i as [|[|[|[|i]]]]; try (vm_compute in Hk; discriminate Hk).
    vm_compute in Hb. injection Hb as <-. vm_compute in Hin. discriminate Hin.
Defined.

(** ** Orchestrator: order of the stages *)

(** C2. [process_image] runs the Text Redactor exactly when [remove_text]
    is set and then the Person Redactor exactly when [blur_people] is set:
    the calls of a run are those of the decoding, then those of the text
    stage (none when the flag is off, the detection among them when it is
    on and the run returns), then those of the person stage (likewise, with
    the face detection); a run that returns has handed the decoded buffer
    to the text stage and that stage's buffer to the person stage.  With
    both flags off the run is the decoding alone: it returns the decoded
    buffer itself. *)
Theorem process_image_order (E : externals) (pil : PIL) (opts : Options) (σ : world) :
  let run := process_image E pil opts σ in
  (exists t_dec t_text t_people,
     trace run.2 = trace σ ++ t_dec ++ t_text ++ t_people /\
     Forall (fun ev => decode_event ev = true) t_dec /\
     Forall (fun ev => text_event ev = true) t_text /\
     Forall (fun ev => person_event ev = true) t_people /\
     (remove_text opts = false -> t_text = []) /\
     (blur_people opts = false -> t_people = []) /\
     (forall b, run.1 = Ok b ->
        (remove_text opts = true -> EvImageToData ∈ t_text) /\
        (blur_people opts = true -> EvFaceDetect ∈ t_people))) /\
  (forall b, run.1 = Ok b ->
     exists b0 σ0 b1 σ1,
       _pil_to_bgr E pil σ = (Ok b0, σ0) /\
       (if remove_text opts then scrub_text E b0 σ0 else (Ok b0, σ0)) = (Ok b1, σ1) /\
       (if blur_people opts
        then scrub_people E b1 (blur_strength opts) (detect_bodies opts) σ1
        else (Ok b1, σ1)) = (Ok b, run.2)) /\
  (remove_text opts = false -> blur_people opts = false ->
   run = _pil_to_bgr E pil σ).
Proof.
  intros run. destruct (process_image_trace E pil opts σ) as [Htrace Hoff].
  split; [exact Htrace|]. split; [|exact Hoff].
  intros b Hb. apply process_image_Ok_inv.
  subst run. destruct (process_image E pil opts σ) as [r σ']. simpl in Hb. by subst r.
Qed.

(** C2 with both flags off. *)
Lemma process_image_order_witness :
  process_image Demo.E {| mode := "RGB"; raster := Demo.frame 8 8 |}
    {| blur_people := false; remove_text := false;
       blur_strength := 31; detect_bodies := false |} (World [] [])
  = _pil_to_bgr Demo.E {| mode := "RGB"; raster := Demo.frame 8 8 |} (World [] []).
Proof.
  apply (proj2 (proj2 (process_image_order Demo.E
                         {| mode := "RGB"; raster := Demo.frame 8 8 |}
                         {| blur_people := false; remove_text := false;
                            blur_strength := 31; detect_bodies := false |}
                         (World [] []))));
    reflexivity.
Defined.

(** ** Text Redactor: nothing to redact *)




(** ** Text Redactor: the painted rectangle *)

(** C4 (as the code has it). For a hit that passes the filter, with box
    [(x, y, w, h)], the loop body computes the margin
    [pad = max(2, int(0.15 * min(w, h)))], the product truncated and not
    rounded; the corner [(x2, y2) = (max(0, x - pad), max(0, y - pad))]; the
    extents [min(W - x2, w + 2 * pad)] and [min(H - y2, h + 2 * pad)]; and
    sets to 255 every mask pixel between the two corners, both included.
    The box grown by [pad] on its four sides and clamped to the buffer is
    inside what is painted. *)
Theorem paint_hit_box (data : ocr_dict) (i : nat) (mask : mask_image) (x y w h : Z) :
  hit_kept data i = Ok true ->
  hit_box data i = Ok (x, y, w, h) ->
  let W := width mask in
  let H := height mask in
  let pad := Z.max 2 (Z.quot (3 * Z.min w h) 20) in
  let x2 := Z.max 0 (x - pad) in
  let y2 := Z.max 0 (y - pad) in
  let x3 := x2 + Z.min (W - x2) (w + 2 * pad) in
  let y3 := y2 + Z.min (H - y2) (h + 2 * pad) in
  exists mask',
    paint_hit data i mask = Ok mask' /\
    same_shape mask' mask /\
    (forall r c : nat,
       at2 mask' r c =
       (fun v => if between y2 y3 r && between x2 x3 c then 255 else v) <$> at2 mask r c) /\
    (forall r c : nat,
       is_Some (at2 mask r c) ->
       Z.max 0 (y - pad) <= Z.of_nat r < Z.min H (y + h + pad) ->
       Z.max 0 (x - pad) <= Z.of_nat c < Z.min W (x + w + pad) ->
       at2 mask' r c = Some 255).
Proof.
  intros Hk Hbox W H pad x2 y2 x3 y3.
  exists (rectangle mask x2 y2 x3 y3 255).
  split; [|split; [apply rectangle_shape|split]].
  - rewrite (paint_hit_kept data i mask x y w h Hk Hbox).
    unfold text_corners. rewrite text_pad_quot. done.
  - intros r c. apply at2_rectangle.
  - intros r c [v Hv] Hr Hc. rewrite at2_rectangle, Hv. simpl.
    replace (between y2 y3 r) with true; [replace (between x2 x3 c) with true; [done|]|].
    all: symmetry; unfold between; apply andb_true_iff; rewrite !Z.leb_le; lia.
Qed.

(** C4, against the specification's wording: on a 17 x 17 box the code's
    margin is 2 where rounding gives 3; for the box (20, 20, 40, 40) the
    column 66, one past the grown box, is painted; for the box
    (0, 0, 40, 40), cut at the left edge, the column 50 is painted though
    the grown box ends at 46. *)
Lemma paint_hit_box_not_as_stated :
  text_pad 17 17 = 2 /\ spec_text_pad 17 17 = 3 /\
  in_text_box 100 100 (20, 20, 40, 40) 30 66 = true /\
  in_spec_text_box 100 100 (20, 20, 40, 40) 30 66 = false /\
  in_text_box 100 100 (0, 0, 40, 40) 10 50 = true /\
  in_spec_text_box 100 100 (0, 0, 40, 40) 10 50 = false /\
  (m ← text_mask (replicate 100 (replicate 100 0)) Demo.table; mret (at2 m 30 66))
  = Ok (Some 255).
Proof. vm_compute. repeat split. Qed.

(** C4 for the box (20, 20, 40, 40) on an empty mask of 100 x 100. *)
Lemma paint_hit_box_witness :
  exists mask',
    paint_hit Demo.table 0 (replicate 100 (replicate 100 0)) = Ok mask' /\
    at2 mask' 14 65 = Some 255.
Proof.
  destruct (paint_hit_box Demo.table 0 (replicate 100 (replicate 100 0)) 20 20 40 40)
    as (mask' & Hp & _ & _ & Hin).
  - vm_compute. reflexivity.
  - vm_compute. reflexivity.
  - exists mask'. split; [exact Hp|]. apply Hin.
    + exists 0. vm_compute. reflexivity.
    + vm_compute. split; [discriminate|reflexivity].
    + vm_compute. split; [discriminate|reflexivity].
Defined.

(** ** Person Redactor: the face pass *)

(** C5 (as the code has it). The face pass grows a hit [(x, y, w, h)] by
    [pad = int(0.25 * w)], the quarter of the width truncated and not
    rounded, on its four sides (the height grows by the width's margin) and
    blurs it at once.  On a 200 x 200 buffer the hit (10, 10, 40, 40) has
    [pad = 10] and the blur is applied to the rows and columns 0 to 59 and
    to nothing else. *)
Theorem blur_face_region (E : externals) (out : loc) (blur_strength : Z) :
  (forall x y w h,
     let pad := Z.quot w 4 in
     blur_face E out blur_strength (x, y, w, h) =
     _blur_region E out (x - pad) (y - pad) (w + 2 * pad) (h + 2 * pad) blur_strength) /\
  (forall img σ,
     heap σ !! out = Some img -> width img = 200 -> height img = 200 ->
     let run := blur_face E out blur_strength (10, 10, 40, 40) σ in
     let kk := Z.max 3 (Z.lor blur_strength 1) in
     face_pad 40 = 10 /\
     trace run.2 = trace σ ++ [EvGaussianBlur 0 60 0 60 kk] /\
     exists img',
       heap run.2 !! out = Some img' /\
       (forall r c : nat, ~ (r < 60 /\ c < 60)%nat -> at2 img' r c = at2 img r c) /\
       (forall blurred,
          GaussianBlur E (slice2 img 0 60 0 60) kk = Ok blurred ->
          same_shape blurred (slice2 img 0 60 0 60) ->
          forall r c : nat, (r < 60)%nat -> (c < 60)%nat ->
            at2 img' r c = at2 blurred r c)).
Proof.
  split.
  - intros x y w h pad. unfold blur_face. by rewrite face_pad_quot.
  - intros img σ Hb Hw Hh run kk. split; [by vm_compute|].
    subst run. unfold blur_face. change (face_pad 40) with 10.
    change (10 - 10) with 0. change (40 + 2 * 10) with 60.
    pose proof (blur_region_effect E out 0 0 60 60 blur_strength img σ Hb) as Heff.
    rewrite Hw, Hh in Heff.
    change (Z.max 0 0) with 0 in Heff. change (Z.min 200 (0 + 60)) with 60 in Heff.
    destruct Heff as (Ht & _ & img' & Hi & _ & Hout & Hin); [lia|lia|].
    split; [exact Ht|]. exists img'. split; [exact Hi|]. split.
    + intros r c Hnot. apply Hout. lia.
    + intros blurred HG Hs r c Hr Hc.
      destruct (Hin blurred HG Hs) as [_ Hin'].
      rewrite Hin' by lia. f_equal; lia.
Qed.

(** C5, against the specification's wording: a face 27 wide is grown by 6,
    where rounding the quarter of 27 gives 7. *)
Lemma blur_face_region_not_rounded :
  face_pad 27 = 6 /\ spec_face_pad 27 = 7 /\
  trace (blur_face Demo.E 0%nat 31 (50, 50, 27, 27) (Demo.world_of 100 100)).2
  = [EvGaussianBlur 44 83 44 83 31].
Proof. vm_compute. repeat split. Qed.

(** C5 on a frame of 200 x 200. *)
Lemma blur_face_region_witness :
  trace (blur_face Demo.E 0%nat 31 (10, 10, 40, 40) (Demo.world_of 200 200)).2
  = [EvGaussianBlur 0 60 0 60 31].
Proof.
  destruct (proj2 (blur_face_region Demo.E 0%nat 31) (Demo.frame 200 200)
              (Demo.world_of 200 200)) as (_ & Ht & _).
  - reflexivity.
  - vm_compute. reflexivity.
  - vm_compute. reflexivity.
  - exact Ht.
Defined.

(** ** Person Redactor: the body pass *)

(** C6 (as the code has it). The body pass scales by 0.75 exactly when the
    longer side exceeds 900; a detection of weight at least 0.5 is then
    mapped back by dividing each of x, y, w, h by 0.75 and truncating (not
    rounding), which stays within one pixel below the quotient, and is
    blurred; without scaling it is blurred where it was detected; a
    detection of lower weight is skipped.  The detection
    (30, 30, 50, 50) maps to (40, 40, 66, 66), within one pixel of
    (40, 40, 67, 67). *)
Theorem blur_body_remap (E : externals) (out : loc) (blur_strength : Z) :
  (forall img : image,
     (900 < Z.max (height img) (width img) -> body_scale img = 0.75%Q) /\
     (Z.max (height img) (width img) <= 900 -> body_scale img = 1.0%Q)) /\
  (forall x y w h wt,
     (0.5 <= wt)%Q ->
     blur_body E out 0.75 blur_strength ((x, y, w, h), wt) =
     _blur_region E out (Z.quot (4 * x) 3) (Z.quot (4 * y) 3)
       (Z.quot (4 * w) 3) (Z.quot (4 * h) 3) blur_strength) /\
  (forall x y w h wt,
     (0.5 <= wt)%Q ->
     blur_body E out 1.0 blur_strength ((x, y, w, h), wt) =
     _blur_region E out x y w h blur_strength) /\
  (forall scale x y w h wt σ,
     (wt < 0.5)%Q ->
     blur_body E out scale blur_strength ((x, y, w, h), wt) σ = (Ok tt, σ)) /\
  (forall x, 0 <= x -> 3 * remap 0.75 x <= 4 * x < 3 * (remap 0.75 x + 1)) /\
  (remap 0.75 30, remap 0.75 30, remap 0.75 50, remap 0.75 50) = (40, 40, 66, 66) /\
  Z.abs (remap 0.75 50 - 67) <= 1.
Proof.
  split; [|split; [|split; [|split; [|split; [|split]]]]].
  - intros img. unfold body_scale. split; intros Hm.
    + by rewrite (proj2 (Z.gtb_lt _ _)) by lia.
    + destruct (Z.gtb_spec (Z.max (height img) (width img)) 900); [lia|done].
  - intros x y w h wt Hwt. unfold blur_body.
    rewrite (proj2 (Qltb_ge wt 0.5)) by done. simpl negb. cbv iota.
    by rewrite !remap_quot.
  - intros x y w h wt Hwt. unfold blur_body.
    by rewrite (proj2 (Qltb_ge wt 0.5)) by done.
  - intros scale x y w h wt σ Hwt. unfold blur_body.
    destruct (Qltb wt 0.5) eqn:Hlt; [done|].
    apply Qltb_ge in Hlt. by apply Qle_not_lt in Hlt.
  - intros x Hx. rewrite remap_quot.
    pose proof (Z.quot_rem (4 * x) 3 ltac:(lia)).
    pose proof (Z.rem_bound_pos (4 * x) 3 ltac:(lia) ltac:(lia)). lia.
  - by vm_compute.
  - by vm_compute.
Qed.

(** C6, against the specification's wording: the width 50 maps back to 66,
    where rounding 50 / 0.75 to the nearest pixel gives 67. *)
Lemma blur_body_remap_not_rounded :
  remap 0.75 50 = 66 /\ spec_remap 0.75 50 = 67.
Proof. vm_compute. repeat split. Qed.

(** C6 for the detection (30, 30, 50, 50) of weight 0.9. *)
Lemma blur_body_remap_witness :
  blur_body Demo.E 0%nat 0.75 31 ((30, 30, 50, 50), 0.9%Q)
  = _blur_region Demo.E 0%nat 40 40 66 66 31.
Proof.
  apply (proj1 (proj2 (blur_body_remap Demo.E 0%nat 31)) 30 30 50 50 0.9%Q).
  vm_compute. discriminate.
Defined.

(** ** Blur strength *)


(** ** Region Blur Operator *)

(** C8. [_blur_region] clamps the rectangle to the buffer; when the clamped
    area is empty, in particular when the rectangle lies outside the
    buffer, it returns without an error and leaves the world as it was;
    otherwise it calls the Gaussian blur once, on the clamped slice and with
    kernel size [max(3, k | 1)], leaves every other array and every pixel
    outside the clamped slice as it was, and (when the blur returns an array
    of the slice's shape) writes the blurred slice inside. *)
Theorem blur_region_clamped (E : externals) (bgr : loc) (x y w h k : Z)
    (img : image) (σ : world) :
  heap σ !! bgr = Some img ->
  let x1 := Z.max 0 x in
  let y1 := Z.max 0 y in
  let x2 := Z.min (width img) (x + w) in
  let y2 := Z.min (height img) (y + h) in
  let kk := Z.max 3 (Z.lor k 1) in
  let run := _blur_region E bgr x y w h k σ in
  (x2 <= x1 \/ y2 <= y1 -> run = (Ok tt, σ)) /\
  (x + w <= 0 \/ width img <= x \/ y + h <= 0 \/ height img <= y -> run = (Ok tt, σ)) /\
  (x1 < x2 /\ y1 < y2 ->
   trace run.2 = trace σ ++ [EvGaussianBlur y1 y2 x1 x2 kk] /\
   (forall l, l <> bgr -> heap run.2 !! l = heap σ !! l) /\
   exists img',
     heap run.2 !! bgr = Some img' /\ same_shape img' img /\
     (forall r c : nat,
        ~ (y1 <= Z.of_nat r < y2 /\ x1 <= Z.of_nat c < x2) ->
        at2 img' r c = at2 img r c) /\
     (forall blurred,
        GaussianBlur E (slice2 img y1 y2 x1 x2) kk = Ok blurred ->
        same_shape blurred (slice2 img y1 y2 x1 x2) ->
        run.1 = Ok tt /\
        forall r c : nat,
          y1 <= Z.of_nat r < y2 -> x1 <= Z.of_nat c < x2 ->
          at2 img' r c = at2 blurred (r - Z.to_nat y1) (c - Z.to_nat x1))).
Proof.
  intros Hb x1 y1 x2 y2 kk run. split; [|split].
  - intros Hempty. by eapply blur_region_skip.
  - intros Hout. eapply blur_region_skip; [done|]. fold x1 y1 x2 y2. lia.
  - intros [Hx Hy]. by apply blur_region_effect.
Qed.

(** C8 for a rectangle outside a frame of 100 x 100, and for one that the
    top and right edges cut. *)
Lemma blur_region_clamped_witness :
  _blur_region Demo.E 0%nat 150 (-20) 10 10 31 (Demo.world_of 100 100)
  = (Ok tt, Demo.world_of 100 100) /\
  trace (_blur_region Demo.E 0%nat 90 (-5) 20 20 30 (Demo.world_of 100 100)).2
  = [EvGaussianBlur 0 15 90 100 31].
Proof.
  split.
  - apply (blur_region_clamped Demo.E 0%nat 150 (-20) 10 10 31
             (Demo.frame 100 100) (Demo.world_of 100 100) eq_refl).
    right. left. vm_compute. discriminate.
  - apply (blur_region_clamped Demo.E 0%nat 90 (-5) 20 20 30
             (Demo.frame 100 100) (Demo.world_of 100 100) eq_refl).
    vm_compute. split; reflexivity.
Defined.

(** ** Errors *)



(** ** Person Redactor: the copy *)

(** C10. [scrub_people] never writes into an array that existed before the
    call, whatever the arguments and whether it returns or raises: the
    caller's buffer holds after the call what it held before.  The array it
    returns is the copy, at a reference that named no array before. *)
Theorem scrub_people_keeps_input (E : externals) (bgr : loc) (blur_strength : Z)
    (detect_bodies : bool) (σ : world) :
  let run := scrub_people E bgr blur_strength detect_bodies σ in
  (forall l a, heap σ !! l = Some a -> heap run.2 !! l = Some a) /\
  (forall out, run.1 = Ok out ->
     out <> bgr /\ heap σ !! out = None /\ is_Some (heap run.2 !! out)).
Proof.
  intros run. subst run.
  destruct (scrub_people E bgr blur_strength detect_bodies σ) as [r σ'] eqn:Hrun.
  simpl. unfold scrub_people in Hrun.
  unfold mbind at 1, M_bind at 1 in Hrun. rewrite copy_run in Hrun.
  destruct (heap σ !! bgr) as [img|] eqn:Hb; [|by injection Hrun as <- <-].
  set (n := length (heap σ)) in *.
  set (σ1 := World (heap σ ++ [img]) (trace σ)) in *.
  set (rest := _ ≫= _) in Hrun. rename Hrun into Hrest.
  assert (Hk : keeps n σ1 σ').
  { assert (Hr : respects (keeps n) rest); [|by eapply Hr].
    subst rest. run_step; [by apply face_pass_keeps|].
    run_step; [|apply respects_ret; apply _].
    destruct detect_bodies; [by apply body_pass_keeps|apply respects_ret; apply _]. }
  destruct Hk as [Hlen Hkeep]. simpl in Hlen, Hkeep.
  rewrite length_app in Hlen. simpl in Hlen. fold n in Hlen.
  assert (Hout : forall out, r = Ok out -> out = n).
  { intros out ->. subst rest.
    apply bind_Ok_inv in Hrest as (? & σ2 & _ & Hrest).
    apply bind_Ok_inv in Hrest as (? & σ3 & _ & Hrest).
    by injection Hrest as <- _. }
  split.
  - intros l a Hl. pose proof (lookup_lt_Some _ _ _ Hl) as Hlt. fold n in Hlt.
    rewrite Hkeep; [|lia|rewrite length_app; simpl; lia].
    by apply lookup_app_l_Some.
  - intros out Hr. apply Hout in Hr as ->.
    apply lookup_lt_Some in Hb. fold n in Hb.
    split; [lia|]. split; [apply lookup_ge_None_2; lia|].
    apply lookup_lt_is_Some. lia.
Qed.

(** C10 on a frame of 100 x 100 with a face and a body. *)
Lemma scrub_people_keeps_input_witness :
  heap (scrub_people Demo.E 0%nat 31 true (Demo.world_of 100 100)).2 !! 0%nat
  = Some (Demo.frame 100 100).
Proof.
  apply (proj1 (scrub_people_keeps_input Demo.E 0%nat 31 true (Demo.world_of 100 100))).
  reflexivity.
Defined.

(** * Further properties of the code *)

(** ** The kernel size *)

(** X1. Line 53 turns every integer, negative ones too, into a kernel size
    that [cv2.GaussianBlur] accepts: odd and at least 3.  An odd size of 3
    or more is kept, an even one is raised by one, anything below 3
    becomes 3. *)
Theorem kernel_size_valid (k : Z) :
  Z.odd (kernel_size k) = true /\
  3 <= kernel_size k /\
  (3 <= k -> Z.odd k = true -> kernel_size k = k) /\
  (3 <= k -> Z.even k = true -> kernel_size k = k + 1) /\
  (k < 3 -> kernel_size k = 3).
Proof.
  unfold kernel_size. pose proof (lor_1_odd k) as Hodd.
  pose proof (lor_1_bounds k) as Hb.
  assert (Hpar : Z.odd k = true -> Z.lor k 1 = k).
  { intros Hk. rewrite lor_1. rewrite (Zodd_div2 k) at 2 by (by apply Zodd_bool_iff).
    rewrite Z.div2_div. lia. }
  assert (Hev : Z.even k = true -> Z.lor k 1 = k + 1).
  { intros Hk. rewrite lor_1. rewrite (Zeven_div2 k) at 2 by (by apply Zeven_bool_iff).
    rewrite Z.div2_div. lia. }
  split; [|split; [lia|split; [|split]]].
  - destruct (Z.max_spec 3 (Z.lor k 1)) as [[_ ->]|[_ ->]]; done.
  - intros Hk Ho. rewrite Hpar by done. lia.
  - intros Hk He. rewrite Hev by done. lia.
  - intros Hk. destruct (Z.eq_dec (Z.lor k 1) 4) as [H4|]; [|lia].
    rewrite H4 in Hodd. done.
Qed.

(** X1 at 30 (even), 31 (odd) and -7. *)
Lemma kernel_size_valid_witness :
  kernel_size 31 = 31 /\ kernel_size 30 = 30 + 1 /\ kernel_size (-7) = 3.
Proof.
  split; [|split].
  - apply (kernel_size_valid 31); [lia|reflexivity].
  - apply (kernel_size_valid 30); [lia|reflexivity].
  - apply (kernel_size_valid (-7)). lia.
Defined.

(** ** The filter on the hits, by the characters of the text *)

Lemma lstrip_nil (s : pystr) : lstrip s = [] <-> forallb py_isspace s = true.
Proof.
  induction s as [|c s IH]; simpl; [done|].
  destruct (py_isspace c); simpl; [done|]. split; done.
Qed.

Lemma lstrip_head (s : pystr) c s' : lstrip s = c :: s' -> py_isspace c = false.
Proof.
  induction s as [|d s IH]; simpl; [done|].
  destruct (py_isspace d) eqn:Hd; [done|]. by intros [= <- _].
Qed.

(** [strip] leaves nothing exactly when every character is white space. *)
Lemma strip_nil (s : pystr) : strip s = [] <-> forallb py_isspace s = true.
Proof.
  unfold strip. split.
  - intros H. apply lstrip_nil.
    destruct (lstrip s) as [|c s'] eqn:Hl; [done|].
    apply (f_equal (@rev N)) in H. rewrite rev_involutive in H. simpl in H.
    apply lstrip_nil in H. rewrite forallb_app in H. simpl in H.
    rewrite (lstrip_head _ _ _ Hl) in H.
    rewrite andb_false_r in H. done.
  - intros H. apply lstrip_nil in H. by rewrite H.
Qed.

(** X2. Lines 83-91: a hit whose text and confidence can be read is kept
    exactly when its text (with [None] read as the empty string) has a
    character that is not white space and its confidence is not below 60,
    the test of line 91 being [conf < 60]: a finite confidence is kept from
    60 on; NaN and the positive infinity, which [float()] accepts, are
    kept; the negative infinity and a value that [float()] rejects, read
    as -1, are dropped.  A blank text is dropped whatever its
    confidence. *)
Theorem hit_kept_by_characters (data : ocr_dict) (i : nat)
    (t : option pystr) (c : conf_value) :
  default [] (d_text data) !! i = Some t ->
  default [ConfNumber (-1)] (d_conf data) !! i = Some c ->
  let nonblank := negb (forallb py_isspace (default [] t)) in
  hit_kept data i = Ok (nonblank && negb (float_lt (conf_float c) 60)) /\
  (forall q, c = ConfNumber q -> hit_kept data i = Ok (nonblank && Qle_bool 60 q)) /\
  (c = ConfNaN \/ c = ConfInf false -> hit_kept data i = Ok nonblank) /\
  (c = ConfOther \/ c = ConfInf true -> hit_kept data i = Ok false) /\
  (nonblank = false -> hit_kept data i = Ok false).
Proof.
  intros Ht Hc nonblank.
  assert (Hk : hit_kept data i = Ok (nonblank && negb (float_lt (conf_float c) 60))).
  { unfold hit_kept, getitem, index, mbind, result_bind, mret, result_ret.
    destruct (d_text data) as [text|]; simpl in *; [|done].
    rewrite Ht. simpl. rewrite Hc. f_equal. f_equal. subst nonblank.
    destruct (strip (default [] t)) as [|d s'] eqn:Hs; simpl.
    - apply strip_nil in Hs. by rewrite Hs.
    - destruct (forallb py_isspace (default [] t)) eqn:Hall; [|done].
      apply strip_nil in Hall. congruence. }
  split; [done|]. split; [|split; [|split]].
  - intros q ->. rewrite Hk. simpl. unfold Qltb. by rewrite negb_involutive.
  - intros [-> | ->]; rewrite Hk; simpl; by rewrite andb_true_r.
  - intros [-> | ->]; rewrite Hk; by rewrite andb_false_r.
  - intros Hblank. by rewrite Hk, Hblank.
Qed.

(** X2 on the tables of the concrete environment: a word at 96, blanks at
    95, a text that is [None] with a confidence that is no number, and a
    word whose confidence is NaN. *)
Lemma hit_kept_by_characters_witness :
  hit_kept Demo.table 0 = Ok true /\
  hit_kept Demo.table 1 = Ok false /\
  hit_kept Demo.table 3 = Ok false /\
  hit_kept nan_table 0 = Ok true.
Proof.
  split; [|split; [|split]].
  - exact (proj1 (proj2 (hit_kept_by_characters Demo.table 0 (Some (str "Hello"))
                           (ConfNumber 96) eq_refl eq_refl)) 96%Q eq_refl).
  - apply (proj2 (proj2 (proj2 (proj2 (hit_kept_by_characters Demo.table 1
                           (Some (str "   ")) (ConfNumber 95) eq_refl eq_refl))))).
    reflexivity.
  - apply (proj1 (proj2 (proj2 (proj2 (hit_kept_by_characters Demo.table 3 None
                           ConfOther eq_refl eq_refl))))).
    left. reflexivity.
  - exact (proj1 (proj2 (proj2 (hit_kept_by_characters nan_table 0
                           (Some (str "Hello")) ConfNaN eq_refl eq_refl)))
             (or_introl eq_refl)).
Defined.

(** ** The margin and the corners of a text box *)

(** X3. Lines 96-100: the margin is at least 2, it is 2 exactly for the
    boxes whose smaller side is below 20, and from there on it is 15
    percent of the smaller side rounded down.  Whatever the box, the near
    corner handed to [cv2.rectangle] has no negative coordinate and the far
    one does not pass the width and height of the mask. *)
Theorem text_corners_bounds (W H x y w h : Z) :
  let pad := text_pad w h in
  2 <= pad /\
  (pad = 2 <-> Z.min w h < 20) /\
  (20 <= Z.min w h -> 20 * pad <= 3 * Z.min w h < 20 * (pad + 1)) /\
  let '(x2, y2, x3, y3) := text_corners W H x y w h in
  0 <= x2 /\ 0 <= y2 /\ x3 <= W /\ y3 <= H /\
  (0 <= x -> x2 <= x) /\ (0 <= y -> y2 <= y).
Proof.
  intros pad. subst pad. unfold text_corners. rewrite text_pad_quot.
  set (m := Z.min w h).
  assert (Hq : 20 <= m -> 20 * (Z.quot (3 * m) 20) <= 3 * m < 20 * (Z.quot (3 * m) 20 + 1)).
  { intros Hm. pose proof (Z.quot_rem (3 * m) 20 ltac:(lia)).
    pose proof (Z.rem_bound_pos (3 * m) 20 ltac:(lia) ltac:(lia)). lia. }
  assert (Hsmall : m < 20 -> Z.quot (3 * m) 20 <= 2).
  { intros Hm. destruct (Z_le_gt_dec 0 m).
    - pose proof (Z.quot_rem (3 * m) 20 ltac:(lia)).
      pose proof (Z.rem_bound_pos (3 * m) 20 ltac:(lia) ltac:(lia)). lia.
    - pose proof (Z.quot_rem (3 * m) 20 ltac:(lia)).
      pose proof (Z.rem_bound_abs (3 * m) 20 ltac:(lia)). lia. }
  split; [lia|]. split; [|split].
  - split; intros Hp.
    + destruct (Z_lt_ge_dec m 20); [done|]. specialize (Hq ltac:(lia)). lia.
    + specialize (Hsmall Hp). lia.
  - intros Hm. specialize (Hq Hm). lia.
  - lia.
Qed.

(** X3 for the box (20, 20, 40, 40) on a mask of 100 x 100. *)
Lemma text_corners_bounds_witness :
  20 * text_pad 40 40 <= 3 * Z.min 40 40 < 20 * (text_pad 40 40 + 1).
Proof.
  apply (text_corners_bounds 100 100 20 20 40 40). vm_compute. discriminate.
Defined.

(** ** The mask, exactly *)

Lemma paint_hit_keeps_255 data i (m m' : mask_image) (r c : nat) :
  paint_hit data i m = Ok m' -> at2 m r c = Some 255 -> at2 m' r c = Some 255.
Proof.
  unfold paint_hit. destruct (hit_kept data i) as [[|]|e]; simpl; [| |done].
  - destruct (hit_box data i) as [[[[x y] w] h]|e]; simpl; [|done].
    intros [= <-] Hv. rewrite at2_rectangle, Hv. simpl.
    by destruct (between _ _ r && between _ _ c).
  - by intros [= <-].
Qed.

Lemma paint_hit_paints data i (m m' : mask_image) b (r c : nat) :
  paint_hit data i m = Ok m' ->
  hit_kept data i = Ok true -> hit_box data i = Ok b ->
  in_text_box (width m) (height m) b r c = true ->
  is_Some (at2 m r c) -> at2 m' r c = Some 255.
Proof.
  intros Hp Hk Hb Hin [v Hv]. destruct b as [[[x y] w] h].
  rewrite (paint_hit_kept data i m x y w h Hk Hb) in Hp.
  unfold in_text_box in Hin.
  destruct (text_corners (width m) (height m) x y w h) as [[[x2 y2] x3] y3].
  injection Hp as <-. by rewrite at2_rectangle, Hv, Hin.
Qed.

Lemma fold_paint_complete data l (m m' : mask_image) (r c : nat) :
  fold_result (paint_hit data) l m = Ok m' ->
  is_Some (at2 m r c) ->
  at2 m r c = Some 255 \/
  (exists i b, i ∈ l /\ hit_kept data i = Ok true /\ hit_box data i = Ok b /\
               in_text_box (width m) (height m) b r c = true) ->
  at2 m' r c = Some 255.
Proof.
  revert m. induction l as [|i l IH]; intros m; simpl.
  - intros [= <-] _ [H|(j & b & Hj & _)]; [done|]. by apply not_elem_of_nil in Hj.
  - destruct (paint_hit data i m) as [m1|e] eqn:H1; simpl; [|done].
    intros H2 Hsome Hcase.
    destruct (paint_hit_marks data i m m1 H1) as [Hs1 _].
    destruct (same_shape_width _ _ Hs1) as [Hw Hh].
    apply (IH m1 H2).
    + eapply same_shape_at2; [apply same_shape_sym, Hs1|done].
    + destruct Hcase as [H255|(j & b & Hj & Hk & Hb & Hin)].
      * left. by eapply paint_hit_keeps_255.
      * apply elem_of_cons in Hj as [->|Hj].
        -- left. by eapply paint_hit_paints.
        -- right. exists j, b. by rewrite Hw, Hh.
Qed.

(** X4. Lines 79-101: when the loop over the hits ends without an error,
    the mask has the height and width of the grayscale image, each of its
    entries is 0 or 255, and an entry is 255 exactly when the pixel lies in
    the rectangle painted for some kept hit: no hit that passes the filter
    is left out and nothing else is marked. *)
Theorem text_mask_exact (g : gray_image) (data : ocr_dict) (mask : mask_image) :
  text_mask g data = Ok mask ->
  width mask = width g /\ height mask = height g /\
  forall (r c : nat) v,
    at2 mask r c = Some v ->
    (v = 0 \/ v = 255) /\
    (v = 255 <-> in_text_boxes data (width g) (height g) r c).
Proof.
  unfold text_mask. intros Hf.
  destruct (fold_paint_marks _ _ _ _ Hf) as [Hs Hm].
  destruct (zeros_like_width g) as [Hw Hh].
  destruct (same_shape_width _ _ Hs) as [Hw' Hh'].
  split; [congruence|]. split; [congruence|].
  intros r c v Hv.
  assert (Hin : in_text_boxes data (width g) (height g) r c -> v = 255).
  { intros (i & b & Hk & Hb & Hin).
    assert (H255 : at2 mask r c = Some 255); [|congruence].
    eapply fold_paint_complete; [exact Hf| |].
    - eapply same_shape_at2; [exact Hs|eauto].
    - right. exists i, b. rewrite Hw, Hh. repeat split; try done.
      apply elem_of_seq. split; [lia|]. simpl.
      apply hit_kept_true in Hk as (t & _ & Ht & _).
      by apply lookup_lt_Some in Ht. }
  destruct (Hm r c v Hv) as [H0|Hb].
  - apply at2_zeros_like in H0 as ->. split; [by left|].
    split; [done|]. intros Hyes. by apply Hin in Hyes.
  - rewrite Hw, Hh in Hb. rewrite (Hin Hb). split; [by right|done].
Qed.

(** X4 on the table of the concrete environment and a mask of 100 x 100:
    the entry at row 30, column 66 is marked. *)
Lemma text_mask_exact_witness :
  exists mask,
    text_mask (replicate 100 (replicate 100 0)) Demo.table = Ok mask /\
    width mask = 100 /\ at2 mask 30 66 = Some 255.
Proof.
  destruct (text_mask (replicate 100 (replicate 100 0)) Demo.table) as [mask|e] eqn:Hm.
  - exists mask. split; [reflexivity|].
    destruct (text_mask_exact _ _ _ Hm) as (Hw & _ & Hall).
    split; [exact Hw|].
    destruct (at2 mask 30 66) as [v|] eqn:Hv.
    + destruct (Hall 30%nat 66%nat v Hv) as [_ [_ Hyes]]. f_equal. apply Hyes.
      exists 0%nat, (20, 20, 40, 40). vm_compute. repeat split.
    + vm_compute in Hm. injection Hm as <-. vm_compute in Hv. discriminate Hv.
  - vm_compute in Hm. discriminate Hm.
Defined.

(** ** The Text Redactor: when it inpaints, when it raises, what it keeps *)

Lemma foldr_max_ge (v0 : Z) (vs : list Z) :
  v0 <= foldr Z.max v0 vs /\ forall v, v ∈ vs -> v <= foldr Z.max v0 vs.
Proof.
  induction vs as [|x vs [IH0 IH]]; simpl.
  - split; [lia|]. intros v Hv. by apply not_elem_of_nil in Hv.
  - split; [lia|]. intros v [->|Hv]%elem_of_cons; [lia|]. specialize (IH v Hv). lia.
Qed.

Lemma at2_concat (m : mask_image) (r c : nat) v : at2 m r c = Some v -> v ∈ concat m.
Proof.
  unfold at2. revert r. induction m as [|row m IH]; intros r; [done|].
  destruct r as [|r]; simpl; intros H; apply elem_of_app.
  - left. by eapply list_elem_of_lookup_2.
  - right. by eapply IH.
Qed.

Lemma array_max_ge (m : mask_image) (r c : nat) v :
  at2 m r c = Some v -> exists mx, array_max m = Some mx /\ v <= mx.
Proof.
  intros Hv. apply at2_concat in Hv. unfold array_max.
  destruct (concat m) as [|v0 vs]; [by apply not_elem_of_nil in Hv|].
  exists (foldr Z.max v0 vs). split; [done|].
  destruct (foldr_max_ge v0 vs) as [H0 Hall].
  apply elem_of_cons in Hv as [->|Hv]; auto.
Qed.

(** X5. Lines 103-108: when the rectangle of some kept hit contains a pixel
    of the frame, [scrub_text] calls the inpainter once, after the
    detection, with the mask and radius 3, and returns a new array that
    holds what the inpainter returned; the array it was given stays in the
    store as it was.  An error of the inpainter is the error of
    [scrub_text]. *)
Theorem scrub_text_inpaints (E : externals) (bgr : loc) (img rgb : image)
    (g0 g : gray_image) (data : ocr_dict) (mask : mask_image) (σ : world)
    (r c : nat) :
  heap σ !! bgr = Some img ->
  cvtColor E img = Ok rgb ->
  cvtColor_GRAY E img = Ok g0 ->
  bilateralFilter E g0 7 50 50 = Ok g ->
  image_to_data E rgb = Ok data ->
  text_mask g data = Ok mask ->
  is_Some (at2 mask r c) ->
  in_text_boxes data (width g) (height g) r c ->
  let t := [EvCvtColor; EvCvtGray; EvBilateral; EvImageToData; EvInpaint] in
  (forall painted, inpaint E img mask 3 = Ok painted ->
     scrub_text E bgr σ =
     (Ok (length (heap σ)), World (heap σ ++ [painted]) (trace σ ++ t))) /\
  (forall e, inpaint E img mask 3 = Raise e ->
     scrub_text E bgr σ = (Raise e, World (heap σ) (trace σ ++ t))).
Proof.
  intros Hb Hrgb Hg0 Hg Hdata Hmask [v Hv] Hin t.
  assert (H255 : at2 mask r c = Some 255).
  { unfold text_mask in Hmask.
    destruct (fold_paint_marks _ _ _ _ Hmask) as [Hs _].
    destruct (zeros_like_width g) as [Hw Hh].
    destruct Hin as (i & b & Hk & Hbx & Hi).
    eapply fold_paint_complete; [exact Hmask| |].
    - eapply same_shape_at2; [exact Hs|eauto].
    - right. exists i, b. rewrite Hw, Hh. repeat split; try done.
      apply elem_of_seq. split; [lia|]. simpl.
      apply hit_kept_true in Hk as (tx & _ & Ht & _).
      by apply lookup_lt_Some in Ht. }
  destruct (array_max_ge mask r c 255 H255) as (mx & Hmx & Hge).
  rewrite (scrub_text_run E bgr σ img rgb g0 g data mask) by done.
  rewrite Hmx. replace (mx =? 0) with false by (symmetry; apply Z.eqb_neq; lia).
  split.
  - by intros painted ->.
  - by intros e ->.
Qed.

(** X5 on the concrete environment: the word at (20, 20) is inpainted and
    the result is the new array at reference 1. *)
Lemma scrub_text_inpaints_witness :
  (scrub_text Demo.E 0%nat (Demo.world_of 100 100)).1 = Ok 1%nat.
Proof.
  pose (g := match Demo.to_gray (Demo.frame 100 100) with Ok a => a | Raise _ => [] end).
  pose (mask := match text_mask g Demo.table with Ok a => a | Raise _ => [] end).
  pose (painted := match Demo.blacken (Demo.frame 100 100) mask 3 with
                   | Ok a => a | Raise _ => [] end).
  assert (Hmask : text_mask g Demo.table = Ok mask) by (vm_compute; reflexivity).
  assert (Hsome : is_Some (at2 mask 30 30)) by (exists 255; vm_compute; reflexivity).
  assert (Hin : in_text_boxes Demo.table (width g) (height g) 30 30)
    by (exists 0%nat, (20, 20, 40, 40); vm_compute; repeat split).
  rewrite (proj1 (scrub_text_inpaints Demo.E 0%nat (Demo.frame 100 100) _ g g
                    Demo.table mask (Demo.world_of 100 100) 30 30
                    eq_refl eq_refl eq_refl eq_refl eq_refl Hmask Hsome Hin)
             painted eq_refl).
  reflexivity.
Defined.

(** X6. Lines 81-84: a table without a ["text"] column has no hit, so the
    frame is returned as it is after the detection.  A table without a
    ["conf"] column is read against the default one-entry list: its first
    hit counts as confidence -1 and is dropped, and reading the second hit
    raises [IndexError], which ends [scrub_text] before any inpainting and
    with the store as it was. *)
Theorem scrub_text_missing_columns (E : externals) (bgr : loc) (img rgb : image)
    (g0 g : gray_image) (data : ocr_dict) (σ : world) :
  heap σ !! bgr = Some img ->
  cvtColor E img = Ok rgb ->
  cvtColor_GRAY E img = Ok g0 ->
  bilateralFilter E g0 7 50 50 = Ok g ->
  image_to_data E rgb = Ok data ->
  let σ4 := World (heap σ)
              (trace σ ++ [EvCvtColor; EvCvtGray; EvBilateral; EvImageToData]) in
  (d_text data = None -> 0 < height g -> 0 < width g ->
   scrub_text E bgr σ = (Ok bgr, σ4)) /\
  (d_conf data = None -> length (default [] (d_text data)) = 1%nat ->
   0 < height g -> 0 < width g ->
   scrub_text E bgr σ = (Ok bgr, σ4)) /\
  (d_conf data = None -> (2 <= length (default [] (d_text data)))%nat ->
   scrub_text E bgr σ = (Raise IndexError, σ4)).
Proof.
  intros Hb Hrgb Hg0 Hg Hdata σ4. split; [|split].
  - intros Hnone Hh Hw.
    assert (Hmask : text_mask g data = Ok (zeros_like g))
      by (unfold text_mask; by rewrite Hnone).
    rewrite (scrub_text_run E bgr σ img rgb g0 g data _ Hb Hrgb Hg0 Hg Hdata Hmask).
    by rewrite array_max_zeros.
  - intros Hnone Hlen Hh Hw.
    assert (Hmask : text_mask g data = Ok (zeros_like g)).
    { unfold text_mask. rewrite Hlen. simpl.
      destruct (default [] (d_text data)) as [|t [|]] eqn:Ht; simplify_eq/=.
      rewrite paint_hit_dropped; [done|].
      eapply (hit_kept_false data 0 t (ConfNumber (-1))).
      - by rewrite Ht.
      - by rewrite Hnone.
      - intros [_ Hc]. by vm_compute in Hc. }
    rewrite (scrub_text_run E bgr σ img rgb g0 g data _ Hb Hrgb Hg0 Hg Hdata Hmask).
    by rewrite array_max_zeros.
  - intros Hnone Hlen.
    apply (scrub_text_table_error E bgr σ img rgb g0 g data); try done.
    unfold text_mask.
    destruct (default [] (d_text data)) as [|t0 [|t1 text]] eqn:Ht;
      [simpl in Hlen; lia|simpl in Hlen; lia|].
    apply (fold_paint_raises data _ 1); [simpl; lia| |].
    + intros j Hj m0. assert (j = 0%nat) as -> by lia. exists m0.
      apply paint_hit_dropped.
      eapply (hit_kept_false data 0 t0 (ConfNumber (-1))).
      * by rewrite Ht.
      * by rewrite Hnone.
      * intros [_ Hc]. by vm_compute in Hc.
    + intros m0. unfold paint_hit, hit_kept, getitem, index, mbind, result_bind.
      destruct (d_text data) as [tx|]; simpl in Ht; [|done]. subst tx.
      simpl. by rewrite Hnone.
Qed.

(** X6 on a table of two hits without a ["conf"] column. *)
Lemma scrub_text_missing_columns_witness :
  scrub_text (Demo.env no_conf_table [] ([], [])) 0%nat (Demo.world_of 4 4)
  = (Raise IndexError,
     World [Demo.frame 4 4] [EvCvtColor; EvCvtGray; EvBilateral; EvImageToData]).
Proof.
  apply (proj2 (proj2 (scrub_text_missing_columns (Demo.env no_conf_table [] ([], []))
                         0%nat (Demo.frame 4 4) _ _ _ no_conf_table (Demo.world_of 4 4)
                         eq_refl eq_refl eq_refl eq_refl eq_refl))).
  - reflexivity.
  - vm_compute. lia.
Defined.

(** X7. Line 94: the box of a hit is read only after the hit has passed
    the filter.  When that reading raises (a box column that is missing
    gives [KeyError], one that is too short [IndexError]) and the hits
    before could be handled, [scrub_text] ends with that error, after the
    detection, without a call of the inpainter and with the store as it
    was. *)
Theorem scrub_text_box_error (E : externals) (bgr : loc) (img rgb : image)
    (g0 g : gray_image) (data : ocr_dict) (σ : world) (i : nat) (e : exn) :
  heap σ !! bgr = Some img ->
  cvtColor E img = Ok rgb ->
  cvtColor_GRAY E img = Ok g0 ->
  bilateralFilter E g0 7 50 50 = Ok g ->
  image_to_data E rgb = Ok data ->
  (forall j, (j < i)%nat -> forall m0, exists m1, paint_hit data j m0 = Ok m1) ->
  hit_kept data i = Ok true ->
  hit_box data i = Raise e ->
  scrub_text E bgr σ =
    (Raise e,
     World (heap σ) (trace σ ++ [EvCvtColor; EvCvtGray; EvBilateral; EvImageToData])) /\
  (d_left data = None -> e = KeyError "left") /\
  (forall l, d_left data = Some l -> (length l <= i)%nat -> e = IndexError).
Proof.
  intros Hb Hrgb Hg0 Hg Hdata Hbefore Hk Hbox. split; [|split].
  - apply (scrub_text_table_error E bgr σ img rgb g0 g data); try done.
    unfold text_mask. apply (fold_paint_raises data _ i); [|done|].
    + apply hit_kept_true in Hk as (t & _ & Ht & _). by apply lookup_lt_Some in Ht.
    + intros m0. unfold paint_hit. rewrite Hk. simpl. by rewrite Hbox.
  - intros Hnone. unfold hit_box, getitem, mbind, result_bind in Hbox.
    rewrite Hnone in Hbox. by injection Hbox as <-.
  - intros l Hl Hlen. unfold hit_box, getitem, index, mbind, result_bind in Hbox.
    rewrite Hl in Hbox. rewrite (lookup_ge_None_2 l i Hlen) in Hbox.
    by injection Hbox as <-.
Qed.

(** X7 on a table whose second hit is kept and has no ["left"] column. *)
Lemma scrub_text_box_error_witness :
  scrub_text (Demo.env no_left_table [] ([], [])) 0%nat (Demo.world_of 4 4)
  = (Raise (KeyError "left"),
     World [Demo.frame 4 4] [EvCvtColor; EvCvtGray; EvBilateral; EvImageToData]).
Proof.
  refine (proj1 (scrub_text_box_error (Demo.env no_left_table [] ([], []))
                   0%nat (Demo.frame 4 4) _ _ _ no_left_table (Demo.world_of 4 4)
                   1 (KeyError "left")
                   eq_refl eq_refl eq_refl eq_refl eq_refl _ _ _)).
  - intros j Hj m0. assert (j = 0%nat) as -> by lia. exists m0. reflexivity.
  - reflexivity.
  - reflexivity.
Defined.

(** X8. [scrub_text] never writes into an array of the store, whether it
    returns or raises: every array that was there is there unchanged.  The
    reference it returns is the one it was given or a new one; when it
    raises, the store has no new array either. *)
Theorem scrub_text_keeps_store (E : externals) (bgr : loc) (σ : world) :
  let run := scrub_text E bgr σ in
  (forall l a, heap σ !! l = Some a -> heap run.2 !! l = Some a) /\
  (forall out, run.1 = Ok out ->
     (out = bgr /\ heap run.2 = heap σ) \/
     (heap σ !! out = None /\ is_Some (heap run.2 !! out))) /\
  (forall e, run.1 = Raise e -> heap run.2 = heap σ).
Proof.
  intros run. subst run.
  unfold scrub_text, mbind, M_bind, deref, call, lift, raise, alloc.
  destruct (heap σ !! bgr) as [img|]; simpl; [|by repeat split].
  destruct (cvtColor E img) as [rgb|]; simpl; [|by repeat split].
  destruct (cvtColor_GRAY E img) as [g0|]; simpl; [|by repeat split].
  destruct (bilateralFilter E g0 7 50 50) as [g|]; simpl; [|by repeat split].
  destruct (image_to_data E rgb) as [data|]; simpl; [|by repeat split].
  destruct (text_mask g data) as [mask|]; simpl; [|by repeat split].
  destruct (array_max mask) as [mx|]; simpl; [|by repeat split].
  destruct (mx =? 0); simpl.
  - split; [done|]. split; [|done]. intros out [= <-]. by left.
  - destruct (inpaint E img mask 3) as [painted|]; simpl; [|by repeat split].
    split; [|split; [|done]].
    + intros l a Hl. by apply lookup_app_l_Some.
    + intros out [= <-]. right. split; [by apply lookup_ge_None_2|].
      rewrite list_lookup_middle by done. eauto.
Qed.

(** X8 on the concrete environment, where the word is inpainted: the frame
    that was given is still at reference 0. *)
Lemma scrub_text_keeps_store_witness :
  heap (scrub_text Demo.E 0%nat (Demo.world_of 100 100)).2 !! 0%nat
  = Some (Demo.frame 100 100).
Proof.
  apply (proj1 (scrub_text_keeps_store Demo.E 0%nat (Demo.world_of 100 100))).
  reflexivity.
Defined.

(** ** The Person Redactor: where it blurs *)

Lemma covered_app (t1 t2 : list event) (r c : nat) :
  covered (t1 ++ t2) r c = covered t1 r c || covered t2 r c.
Proof. apply existsb_app. Qed.

#[global] Instance confined_preorder l : PreOrder (confined l).
Proof.
  split.
  - intros w. exists []. split; [by rewrite app_nil_r|].
    intros img Hi. exists img. done.
  - intros w1 w2 w3 (t1 & Ht1 & H1) (t2 & Ht2 & H2). exists (t1 ++ t2).
    split; [by rewrite Ht2, Ht1, app_assoc|].
    intros img Hi. destruct (H1 img Hi) as (img1 & Hi1 & Hs1 & Hf1).
    destruct (H2 img1 Hi1) as (img2 & Hi2 & Hs2 & Hf2).
    exists img2. split; [done|]. split; [unfold same_shape in *; congruence|].
    intros r c Hc. rewrite covered_app in Hc. apply orb_false_iff in Hc as [Hc1 Hc2].
    by rewrite Hf2, Hf1.
Qed.

Lemma confined_call {A} l ev (r : result A) : respects (confined l) (call ev r).
Proof.
  intros w r' w' [= <- <-]. exists [ev]. split; [done|].
  intros img Hi. exists img. done.
Qed.

Lemma confined_alloc l a : respects (confined l) (alloc a).
Proof.
  intros w r w' [= <- <-]. exists []. split; [by rewrite app_nil_r|].
  intros img Hi. exists img. split; [by apply lookup_app_l_Some|done].
Qed.

#[global] Hint Resolve confined_call confined_alloc : runs.

Lemma blur_region_confined (E : externals) l x y w h k :
  respects (confined l) (_blur_region E l x y w h k).
Proof.
  intros σ r σ' Hrun.
  destruct (heap σ !! l) as [img|] eqn:Hb.
  2: { unfold _blur_region, mbind, M_bind, deref in Hrun. rewrite Hb in Hrun.
       injection Hrun as _ <-. reflexivity. }
  destruct (Z_lt_le_dec (Z.max 0 x) (Z.min (width img) (x + w))) as [Hx|Hx].
  2: { rewrite (blur_region_skip E l x y w h k img σ Hb) in Hrun by (by left).
       injection Hrun as _ <-. reflexivity. }
  destruct (Z_lt_le_dec (Z.max 0 y) (Z.min (height img) (y + h))) as [Hy|Hy].
  2: { rewrite (blur_region_skip E l x y w h k img σ Hb) in Hrun by (by right).
       injection Hrun as _ <-. reflexivity. }
  destruct (blur_region_effect E l x y w h k img σ Hb Hx Hy)
    as (Ht & _ & img' & Hi & Hs & Hout & _).
  rewrite Hrun in Ht, Hi. simpl in Ht, Hi.
  eexists. split; [exact Ht|].
  intros img0 Hi0. assert (img0 = img) as -> by congruence.
  exists img'. split; [done|]. split; [done|].
  intros r0 c0 Hc. apply Hout. intros [Hr0 Hc0].
  simpl in Hc. rewrite orb_false_r in Hc.
  rewrite (proj2 (in_span_spec _ _ r0) Hr0), (proj2 (in_span_spec _ _ c0) Hc0) in Hc.
  done.
Qed.

Lemma face_pass_confined (E : externals) out bs :
  respects (confined out) (face_pass E out bs).
Proof.
  unfold face_pass. repeat run_step.
  match goal with |- respects _ (blur_face _ _ _ ?f) => destruct f as [[[x y] w] h] end.
  apply blur_region_confined.
Qed.

Lemma body_pass_confined (E : externals) out bs :
  respects (confined out) (body_pass E out bs).
Proof.
  unfold body_pass. repeat first [run_step | progress cbv zeta].
  all: match goal with
       | |- respects _ (blur_body _ _ _ _ ?hit) => destruct hit as [[[[x y] w] h] wt]
       end; unfold blur_body.
  all: destruct (Qltb wt 0.5); [apply respects_ret; apply _|].
  all: destruct (negb _); apply blur_region_confined.
Qed.

(** X9. [scrub_people] changes the image only inside the slices that it
    hands to the Gaussian blur: the array it returns has the shape of the
    input, and every pixel that lies in none of the slices of the blur calls
    of the run reads as in the input. *)
Theorem scrub_people_confined (E : externals) (bgr : loc) (blur_strength : Z)
    (detect_bodies : bool) (img : image) (σ : world) (out : loc) (σ' : world) :
  heap σ !! bgr = Some img ->
  scrub_people E bgr blur_strength detect_bodies σ = (Ok out, σ') ->
  exists t img',
    trace σ' = trace σ ++ t /\
    heap σ' !! out = Some img' /\
    same_shape img' img /\
    forall r c : nat, covered t r c = false -> at2 img' r c = at2 img r c.
Proof.
  intros Hb Hrun.
  apply scrub_people_Ok_inv in Hrun as (img0 & σ2 & Hb0 & -> & Hface & Hbody).
  assert (img0 = img) as -> by congruence.
  set (σ1 := World (heap σ ++ [img]) (trace σ)) in *.
  assert (H12 : confined (length (heap σ)) σ1 σ2) by (by eapply face_pass_confined).
  assert (H2' : confined (length (heap σ)) σ2 σ').
  { destruct detect_bodies; [by eapply body_pass_confined|].
    injection Hbody as <-. reflexivity. }
  destruct (transitivity H12 H2') as (t & Ht & Hframe).
  destruct (Hframe img) as (img' & Hi & Hs & Hf).
  { subst σ1. simpl. by apply list_lookup_middle. }
  by exists t, img'.
Qed.

(** X9 on the concrete environment: the pixel (90, 90) lies outside the
    face and the body. *)
Lemma scrub_people_confined_witness :
  exists img',
    heap (scrub_people Demo.E 0%nat 31 true (Demo.world_of 100 100)).2 !! 1%nat
    = Some img' /\
    at2 img' 90 90 = at2 (Demo.frame 100 100) 90 90.
Proof.
  destruct (scrub_people_confined Demo.E 0%nat 31 true (Demo.frame 100 100)
              (Demo.world_of 100 100) 1%nat
              (scrub_people Demo.E 0%nat 31 true (Demo.world_of 100 100)).2 eq_refl)
    as (t & img' & Ht & Hi & _ & Hf).
  - vm_compute. reflexivity.
  - exists img'. split; [exact Hi|]. apply Hf.
    simpl in Ht. rewrite <- Ht. vm_compute. reflexivity.
Defined.

(** ** The Person Redactor: which rectangles it blurs *)

(** A loop of blur requests that runs to its end logs, in order, the blur
    call of every request whose clamped rectangle is not empty. *)
Lemma blur_loop_trace (E : externals) (out : loc) (bs : Z) {A}
    (body : A -> M unit) (req : A -> option rect) :
  (forall a, body a = match req a with
                      | Some (x, y, w, h) => _blur_region E out x y w h bs
                      | None => mret tt
                      end) ->
  forall (l : list A) (σ σ' : world) (img : image),
    heap σ !! out = Some img ->
    for_each l body σ = (Ok tt, σ') ->
    trace σ' = trace σ ++
               omap (fun a => req a ≫= clamp_event (width img) (height img) bs) l /\
    exists img', heap σ' !! out = Some img' /\ same_shape img' img.
Proof.
  intros Hbody l. induction l as [|a l IH]; intros σ σ' img Hb Hrun; simpl in *.
  - injection Hrun as <-. rewrite app_nil_r. split; [done|]. by exists img.
  - apply bind_Ok_inv in Hrun as ([] & σ1 & Ha & Hl). rewrite Hbody in Ha.
    assert (Hstep : exists img1, heap σ1 !! out = Some img1 /\ same_shape img1 img /\
              trace σ1 = trace σ ++
                match req a ≫= clamp_event (width img) (height img) bs with
                | Some ev => [ev] | None => [] end).
    { destruct (req a) as [[[[x y] w] h]|]; simpl.
      2: { injection Ha as <-. exists img. by rewrite app_nil_r. }
      destruct (Z_lt_le_dec (Z.max 0 x) (Z.min (width img) (x + w))) as [Hx|Hx];
        [destruct (Z_lt_le_dec (Z.max 0 y) (Z.min (height img) (y + h))) as [Hy|Hy]|].
      - destruct (blur_region_effect E out x y w h bs img σ Hb Hx Hy)
          as (Ht & _ & img1 & Hi & Hs & _).
        rewrite Ha in Ht, Hi. simpl in Ht, Hi. exists img1.
        split; [done|]. split; [done|]. rewrite Ht. f_equal.
        replace ((_ <=? _) || (_ <=? _)) with false; [done|].
        symmetry. apply orb_false_iff. split; apply Z.leb_gt; lia.
      - rewrite (blur_region_skip E out x y w h bs img σ Hb) in Ha by (by right).
        injection Ha as <-. exists img. split; [done|]. split; [done|].
        replace ((_ <=? _) || (_ <=? _)) with true; [by rewrite app_nil_r|].
        symmetry. apply orb_true_iff. right. apply Z.leb_le. lia.
      - rewrite (blur_region_skip E out x y w h bs img σ Hb) in Ha by (by left).
        injection Ha as <-. exists img. split; [done|]. split; [done|].
        replace ((_ <=? _) || (_ <=? _)) with true; [by rewrite app_nil_r|].
        symmetry. apply orb_true_iff. left. apply Z.leb_le. lia. }
    destruct Hstep as (img1 & Hb1 & Hs1 & Ht1).
    destruct (IH σ1 σ' img1 Hb1 Hl) as (Ht' & img' & Hi' & Hs').
    destruct (same_shape_width _ _ Hs1) as [Hw Hh]. rewrite Hw, Hh in Ht'.
    split.
    + rewrite Ht', Ht1, <- app_assoc. f_equal.
      by destruct (req a ≫= clamp_event (width img) (height img) bs).
    + exists img'. split; [done|]. unfold same_shape in *. congruence.
Qed.

(** X10. Lines 116-122: a face pass that runs to its end converts the
    frame to gray before any blur, detects once, and then calls the blur
    once for each face whose grown rectangle meets the buffer, in the order
    of detection and on the clamp of that rectangle; faces that overlap are
    blurred again, none is merged or skipped. *)
Theorem face_pass_blurs (E : externals) (out : loc) (blur_strength : Z)
    (img : image) (σ σ' : world) :
  heap σ !! out = Some img ->
  face_pass E out blur_strength σ = (Ok tt, σ') ->
  exists g faces,
    cvtColor_GRAY E img = Ok g /\
    face_detectMultiScale E g = Ok faces /\
    trace σ' = trace σ ++ [EvCvtGray; EvFaceDetect] ++
               omap (fun f => clamp_event (width img) (height img) blur_strength
                                (grown_face f)) faces.
Proof.
  intros Hb Hrun.
  apply face_pass_Ok_inv in Hrun as (img0 & g & faces & Hb0 & Hg & Hf & Hloop).
  assert (img0 = img) as -> by congruence.
  exists g, faces. split; [done|]. split; [done|].
  apply for_each_Ok in Hloop.
  destruct (blur_loop_trace E out blur_strength (blur_face E out blur_strength)
              (fun f => Some (grown_face f))
              ltac:(by intros [[[x y] w] h]) faces
              (World (heap σ) (trace σ ++ [EvCvtGray; EvFaceDetect])) σ' img Hb Hloop)
    as [Ht _].
  rewrite Ht. simpl. by rewrite <- app_assoc.
Qed.

(** X10 on the concrete environment with its one face. *)
Lemma face_pass_blurs_witness :
  exists g faces,
    cvtColor_GRAY Demo.E (Demo.frame 100 100) = Ok g /\
    face_detectMultiScale Demo.E g = Ok faces /\
    trace (face_pass Demo.E 0%nat 31 (Demo.world_of 100 100)).2
    = [] ++ [EvCvtGray; EvFaceDetect] ++
      omap (fun f => clamp_event (width (Demo.frame 100 100))
                       (height (Demo.frame 100 100)) 31 (grown_face f)) faces.
Proof.
  apply (face_pass_blurs Demo.E 0%nat 31 (Demo.frame 100 100) (Demo.world_of 100 100)).
  - reflexivity.
  - vm_compute. reflexivity.
Defined.

(** X11. Lines 125-139: a body pass that runs to its end resizes the frame
    exactly when its longer side exceeds 900, detects once on the resized
    frame (otherwise on the frame itself), pairs rectangles and weights up
    to the shorter of the two lists, and calls the blur once for each pair
    whose weight is at least 0.5 and whose rectangle, mapped back, meets
    the buffer, in the order of detection. *)
Theorem body_pass_blurs (E : externals) (out : loc) (blur_strength : Z)
    (img : image) (σ σ' : world) :
  heap σ !! out = Some img ->
  body_pass E out blur_strength σ = (Ok tt, σ') ->
  let scaled := Z.max (height img) (width img) >? 900 in
  let scale := if scaled then 0.75%Q else 1.0%Q in
  exists small rects weights,
    (if scaled then resize E img 0.75 = Ok small else small = img) /\
    hog_detectMultiScale E small = Ok (rects, weights) /\
    trace σ' = trace σ ++ (if scaled then [EvResize] else []) ++ [EvBodyDetect] ++
               omap (fun hit => body_request scale hit
                                ≫= clamp_event (width img) (height img) blur_strength)
                    (zip rects weights).
Proof.
  intros Hb Hrun scaled scale.
  apply body_pass_Ok_inv in Hrun
    as (img0 & small & rects & weights & t & Hb0 & Hsmall & Hd & Hloop).
  assert (img0 = img) as -> by congruence.
  assert (Hscale : body_scale img = scale) by done.
  rewrite Hscale in *.
  exists small, rects, weights.
  apply for_each_Ok in Hloop.
  destruct (blur_loop_trace E out blur_strength (blur_body E out scale blur_strength)
              (body_request scale)
              ltac:(intros [[[[x y] w] h] wt]; unfold blur_body, body_request;
                    destruct (Qltb wt 0.5); [done|]; by destruct (negb _))
              (zip rects weights) (World (heap σ) (trace σ ++ t)) σ' img Hb Hloop)
    as [Ht _].
  simpl in Ht. subst scale. destruct scaled; simpl in *.
  - destruct Hsmall as [Hr ->]. split; [done|]. split; [done|].
    rewrite Ht. by rewrite <- app_assoc.
  - destruct Hsmall as [-> ->]. split; [done|]. split; [done|].
    rewrite Ht. by rewrite <- app_assoc.
Qed.

(** X11 on a frame of 1000 x 2: the detection of weight 0.9 is mapped back
    and blurred, the one of weight 0.3 is not. *)
Lemma body_pass_blurs_witness :
  trace (body_pass (Demo.env Demo.table [] ([(0, 30, 50, 50); (0, 5, 1, 10)], [0.9; 0.3]%Q))
           0%nat 31 (Demo.world_of 1000 2)).2
  = [EvResize; EvBodyDetect; EvGaussianBlur 40 106 0 2 31].
Proof.
  destruct (body_pass_blurs
              (Demo.env Demo.table [] ([(0, 30, 50, 50); (0, 5, 1, 10)], [0.9; 0.3]%Q))
              0%nat 31 (Demo.frame 1000 2) (Demo.world_of 1000 2)
              (body_pass (Demo.env Demo.table []
                            ([(0, 30, 50, 50); (0, 5, 1, 10)], [0.9; 0.3]%Q))
                 0%nat 31 (Demo.world_of 1000 2)).2 eq_refl)
    as (small & rects & weights & _ & Hd & Ht).
  - vm_compute. reflexivity.
  - injection Hd as <- <-. rewrite Ht. vm_compute. reflexivity.
Defined.

Lemma deref_Ok (l : loc) (σ : world) (a : image) :
  heap σ !! l = Some a -> deref l σ = (Ok a, σ).
Proof. unfold deref. by intros ->. Qed.

(** A loop over faces whose grown rectangles all miss the buffer does
    nothing. *)
Lemma face_loop_skips (E : externals) (out : loc) (bs : Z) (img : image)
    (faces : list rect) (σ : world) :
  heap σ !! out = Some img ->
  Forall (fun f => clamp_event (width img) (height img) bs (grown_face f) = None) faces ->
  for_each faces (blur_face E out bs) σ = (Ok tt, σ).
Proof.
  intros Hb. induction 1 as [|[[[x y] w] h] faces Hf _ IH]; simpl; [done|].
  erewrite bind_Ok; [exact IH|].
  unfold blur_face. eapply blur_region_skip; [done|].
  unfold clamp_event, grown_face in Hf.
  destruct ((_ <=? _) || (_ <=? _)) eqn:Hc; [|done].
  apply orb_true_iff in Hc as [Hc|Hc]; apply Z.leb_le in Hc; [by left|by right].
Qed.

(** X12. When the face detector finds no face, or only faces whose grown
    rectangle misses the buffer, and the body pass is off, [scrub_people]
    returns a new array that is equal to the input, after the conversion
    and the detection and without a call of the blur. *)
Theorem scrub_people_nothing_found (E : externals) (bgr : loc) (blur_strength : Z)
    (img : image) (g : gray_image) (faces : list rect) (σ : world) :
  heap σ !! bgr = Some img ->
  cvtColor_GRAY E img = Ok g ->
  face_detectMultiScale E g = Ok faces ->
  Forall (fun f => clamp_event (width img) (height img) blur_strength (grown_face f)
                   = None) faces ->
  scrub_people E bgr blur_strength false σ =
  (Ok (length (heap σ)),
   World (heap σ ++ [img]) (trace σ ++ [EvCvtGray; EvFaceDetect])).
Proof.
  intros Hb Hg Hf Hmiss.
  set (n := length (heap σ)).
  set (σ1 := World (heap σ ++ [img]) (trace σ)).
  assert (Hcopy : copy bgr σ = (Ok n, σ1)) by (by rewrite copy_run, Hb).
  assert (Hb1 : heap σ1 !! n = Some img) by (by apply list_lookup_middle).
  assert (Hface : face_pass E n blur_strength σ1
                  = (Ok tt, World (heap σ ++ [img]) (trace σ ++ [EvCvtGray; EvFaceDetect]))).
  { unfold face_pass.
    rewrite (bind_Ok _ _ _ _ _ (deref_Ok _ _ _ Hb1)).
    erewrite bind_Ok; [|unfold call; by rewrite Hg].
    erewrite bind_Ok; [|unfold call; by rewrite Hf].
    simpl. rewrite <- app_assoc. simpl.
    by apply (face_loop_skips E _ _ img). }
  unfold scrub_people.
  rewrite (bind_Ok _ _ _ _ _ Hcopy), (bind_Ok _ _ _ _ _ Hface). reflexivity.
Qed.

(** X12 on a frame of 100 x 100 with a face reported to the right of it. *)
Lemma scrub_people_nothing_found_witness :
  scrub_people (Demo.env Demo.table [(150, 10, 40, 40)] ([], [])) 0%nat 31 false
    (Demo.world_of 100 100)
  = (Ok 1%nat,
     World [Demo.frame 100 100; Demo.frame 100 100] [EvCvtGray; EvFaceDetect]).
Proof.
  apply (scrub_people_nothing_found (Demo.env Demo.table [(150, 10, 40, 40)] ([], []))
           0%nat 31 (Demo.frame 100 100) _ [(150, 10, 40, 40)] (Demo.world_of 100 100)
           eq_refl eq_refl eq_refl).
  constructor; [vm_compute; reflexivity|constructor].
Defined.

(** X13. With the body pass off, [scrub_people] calls neither the resizing
    nor the body detector, whatever the face pass does. *)
Theorem scrub_people_without_bodies (E : externals) (bgr : loc) (blur_strength : Z)
    (σ : world) :
  let run := scrub_people E bgr blur_strength false σ in
  exists t, trace run.2 = trace σ ++ t /\ (EvResize ∉ t) /\ (EvBodyDetect ∉ t).
Proof.
  intros run.
  assert (Hr : respects (emits (fun ev => no_body_event ev = true))
                 (scrub_people E bgr blur_strength false)).
  { unfold scrub_people, copy, face_pass.
    repeat first [run_step | progress cbv zeta]; try done.
    match goal with |- respects _ (blur_face _ _ _ ?f) => destruct f as [[[x y] w] h] end.
    unfold blur_face, _blur_region.
    repeat first [run_step | progress cbv zeta]; done. }
  subst run. destruct (scrub_people E bgr blur_strength false σ) as [r σ'] eqn:Hrun.
  destruct (Hr _ _ _ Hrun) as (t & Ht & HF). exists t. split; [done|].
  rewrite Forall_forall in HF.
  split; intros Hin; by apply HF in Hin.
Qed.

(** X13 on the concrete environment, whose face pass blurs one face. *)
Lemma scrub_people_without_bodies_witness :
  exists t,
    trace (scrub_people Demo.E 0%nat 31 false (Demo.world_of 100 100)).2 = [] ++ t /\
    (EvResize ∉ t) /\ (EvBodyDetect ∉ t).
Proof.
  exact (scrub_people_without_bodies Demo.E 0%nat 31 (Demo.world_of 100 100)).
Defined.

(** ** Decoding, encoding and the endpoint *)

(** X14. [_pil_to_bgr] converts the image to RGB exactly when its mode is
    not ["RGB"], before it reads the pixels; it writes into no array of the
    store; when it returns, the reference is new and names what the colour
    conversion returned, and when it raises, the store is as it was. *)
Theorem pil_to_bgr_decodes (E : externals) (pil : PIL) (σ : world) :
  let run := _pil_to_bgr E pil σ in
  (exists t, trace run.2 = trace σ ++ t /\
     (mode pil = "RGB"%string -> EvPILConvert ∉ t) /\
     (mode pil <> "RGB"%string -> head t = Some EvPILConvert)) /\
  (forall l a, heap σ !! l = Some a -> heap run.2 !! l = Some a) /\
  (forall b, run.1 = Ok b ->
     b = length (heap σ) /\
     exists pil' arr bgr,
       (if String.eqb (mode pil) "RGB" then pil' = pil
        else PIL_convert_RGB E pil = Ok pil') /\
       np_array E pil' = Ok arr /\ cvtColor E arr = Ok bgr /\
       heap run.2 = heap σ ++ [bgr]) /\
  (forall e, run.1 = Raise e -> heap run.2 = heap σ).
Proof.
  intros run. subst run.
  unfold _pil_to_bgr, mbind, M_bind, call, alloc.
  destruct (String.eqb_spec (mode pil) "RGB") as [Hrgb|Hrgb]; simpl.
  - destruct (np_array E pil) as [arr|] eqn:Harr; simpl;
      [destruct (cvtColor E arr) as [bgr|] eqn:Hbgr; simpl|].
    + rewrite <- app_assoc. simpl. split; [|split; [|split]].
      * eexists. split; [done|]. split; [|done]. intros _ Hin.
        rewrite !elem_of_cons in Hin. destruct Hin as [|[|Hin]]; try done.
        by apply not_elem_of_nil in Hin.
      * intros l a Hl. by apply lookup_app_l_Some.
      * intros b [= <-]. split; [done|]. by exists pil, arr, bgr.
      * done.
    + rewrite <- app_assoc. simpl. split; [|by repeat split].
      eexists. split; [done|]. split; [|done]. intros _ Hin.
      rewrite !elem_of_cons in Hin. destruct Hin as [|[|Hin]]; try done.
      by apply not_elem_of_nil in Hin.
    + split; [|by repeat split].
      eexists. split; [done|]. split; [|done]. intros _ Hin.
      rewrite !elem_of_cons in Hin. destruct Hin as [|Hin]; try done.
      by apply not_elem_of_nil in Hin.
  - destruct (PIL_convert_RGB E pil) as [pil'|] eqn:Hconv; simpl;
      [destruct (np_array E pil') as [arr|] eqn:Harr; simpl;
       [destruct (cvtColor E arr) as [bgr|] eqn:Hbgr; simpl|]|].
    + rewrite <- !app_assoc. simpl. split; [|split; [|split]].
      * eexists. split; [done|]. by split.
      * intros l a Hl. by apply lookup_app_l_Some.
      * intros b [= <-]. split; [done|]. by exists pil', arr, bgr.
      * done.
    + rewrite <- !app_assoc. simpl. split; [|by repeat split].
      eexists. split; [done|]. by split.
    + rewrite <- !app_assoc. simpl. split; [|by repeat split].
      eexists. split; [done|]. by split.
    + split; [|by repeat split]. eexists. split; [done|]. by split.
Qed.

(** X14 on an image of mode ["L"]: the conversion comes first. *)
Lemma pil_to_bgr_decodes_witness :
  exists t,
    trace (_pil_to_bgr Demo.E {| mode := "L"; raster := Demo.frame 4 4 |}
             (World [] [])).2 = [] ++ t /\
    head t = Some EvPILConvert.
Proof.
  destruct (proj1 (pil_to_bgr_decodes Demo.E {| mode := "L"; raster := Demo.frame 4 4 |}
                     (World [] []))) as (t & Ht & _ & Hconv).
  exists t. split; [exact Ht|]. apply Hconv. discriminate.
Defined.

(** X15. [_bgr_to_png_bytes] calls the encoder once on the array it is
    given and changes nothing in the store.  It returns the encoder's bytes
    when the encoder reports success, raises [RuntimeError] when the encoder
    reports failure without raising, and raises the encoder's error when it
    raises. *)
Theorem bgr_to_png_bytes_result (E : externals) (bgr : loc) (img : image) (σ : world) :
  heap σ !! bgr = Some img ->
  let run := _bgr_to_png_bytes E bgr σ in
  run.2 = World (heap σ) (trace σ ++ [EvImencode]) /\
  (forall buf, imencode_png E img = Ok (true, buf) -> run.1 = Ok buf) /\
  (forall buf, imencode_png E img = Ok (false, buf) ->
     run.1 = Raise (RuntimeError "Failed to encode image as PNG.")) /\
  (forall e, imencode_png E img = Raise e -> run.1 = Raise e) /\
  (forall buf, run.1 = Ok buf -> imencode_png E img = Ok (true, buf)).
Proof.
  intros Hb run. subst run.
  unfold _bgr_to_png_bytes.
  rewrite (bind_Ok _ _ _ _ _ (deref_Ok _ _ _ Hb)).
  unfold mbind, M_bind, call, raise.
  destruct (imencode_png E img) as [[[|] buf]|e]; simpl; repeat split; try done.
  all: by intros ? [= <-].
Qed.

(** X15 on the concrete environment, whose encoder succeeds with no byte. *)
Lemma bgr_to_png_bytes_result_witness :
  (_bgr_to_png_bytes Demo.E 0%nat (Demo.world_of 4 4)).1 = Ok [].
Proof.
  apply (bgr_to_png_bytes_result Demo.E 0%nat (Demo.frame 4 4) (Demo.world_of 4 4)
           eq_refl).
  reflexivity.
Defined.

(** X16. With both switches off, whatever the blur strength and the body
    switch, the endpoint answers an RGB upload with the encoding of its
    decoded pixels: it opens, reads, converts the colour order and encodes,
    and calls no detector, no inpainter and no blur. *)
Theorem process_passthrough (E : externals) (raw : list Byte.byte)
    (blur_strength : Z) (detect_bodies : bool) (pil : PIL) (arr bgr : image)
    (png : list Byte.byte) (σ : world) :
  PIL_open E raw = Ok pil ->
  mode pil = "RGB"%string ->
  np_array E pil = Ok arr ->
  cvtColor E arr = Ok bgr ->
  imencode_png E bgr = Ok (true, png) ->
  process E raw false false blur_strength detect_bodies σ =
  (Ok png,
   World (heap σ ++ [bgr]) (trace σ ++ [EvPILOpen; EvNpArray; EvCvtColor; EvImencode])).
Proof.
  intros Hopen Hmode Harr Hbgr Henc.
  unfold process. cbv zeta.
  erewrite bind_Ok; [|unfold call; by rewrite Hopen].
  unfold process_image. simpl.
  assert (Hdec : _pil_to_bgr E pil (World (heap σ) (trace σ ++ [EvPILOpen]))
                 = (Ok (length (heap σ)),
                    World (heap σ ++ [bgr])
                      (trace σ ++ [EvPILOpen; EvNpArray; EvCvtColor]))).
  { unfold _pil_to_bgr, mbind, M_bind, call, alloc. rewrite Hmode. simpl.
    rewrite Harr, Hbgr. simpl. by rewrite <- !app_assoc. }
  erewrite bind_Ok.
  2: { erewrite bind_Ok; [|exact Hdec]. reflexivity. }
  unfold _bgr_to_png_bytes.
  erewrite bind_Ok; [|apply deref_Ok; simpl; by apply list_lookup_middle].
  unfold mbind, M_bind, call. rewrite Henc. simpl. by rewrite <- !app_assoc.
Qed.

(** X16 on the concrete environment. *)
Lemma process_passthrough_witness :
  (process Demo.E [] false false 31 true (World [] [])).1 = Ok [].
Proof.
  erewrite (process_passthrough Demo.E [] 31 true _ _ _ [] (World [] []));
    reflexivity.
Defined.

(** ** The store of the pipeline *)

#[global] Instance same_len_preorder : PreOrder same_len.
Proof. split; [done|]. intros w1 w2 w3 H1 H2. unfold same_len in *. congruence. Qed.

Lemma same_len_call {A} ev (r : result A) : respects same_len (call ev r).
Proof. by intros w r' w' [= <- <-]. Qed.

Lemma same_len_store l a : respects same_len (store l a).
Proof. intros w r w' [= <- <-]. unfold same_len. simpl. apply length_insert. Qed.

#[global] Hint Resolve same_len_call same_len_store : runs.

Lemma blur_region_same_len (E : externals) l x y w h k :
  respects same_len (_blur_region E l x y w h k).
Proof. unfold _blur_region. repeat first [run_step | progress cbv zeta]. Qed.

Lemma blur_face_same_len (E : externals) out bs hit :
  respects same_len (blur_face E out bs hit).
Proof. destruct hit as [[[x y] w] h]. apply blur_region_same_len. Qed.

Lemma blur_body_same_len (E : externals) out scale bs hit :
  respects same_len (blur_body E out scale bs hit).
Proof.
  destruct hit as [[[[x y] w] h] wt]. unfold blur_body.
  destruct (Qltb wt 0.5); [apply respects_ret; apply _|].
  destruct (negb _); apply blur_region_same_len.
Qed.

Lemma keeps_all_trans (w1 w2 w3 : world) :
  keeps (length (heap w1)) w1 w2 -> keeps (length (heap w2)) w2 w3 ->
  keeps (length (heap w1)) w1 w3.
Proof.
  intros [L1 K1] [L2 K2]. split; [lia|].
  intros l Hl _. rewrite K2 by lia. by apply K1.
Qed.

Lemma one_more_refl (w : world) : one_more w w.
Proof. split; [reflexivity|lia]. Qed.

Section Stages.
Variable E : externals.

Lemma pil_to_bgr_one_more pil σ r σ' :
  _pil_to_bgr E pil σ = (r, σ') -> one_more σ σ'.
Proof.
  intros Hrun. split.
  - assert (Hr : respects (keeps (length (heap σ))) (_pil_to_bgr E pil))
      by (unfold _pil_to_bgr; repeat run_step).
    by eapply Hr.
  - revert Hrun. unfold _pil_to_bgr, mbind, M_bind, call, alloc.
    destruct (negb _); simpl.
    + destruct (PIL_convert_RGB E pil) as [p|]; simpl; [|intros [= _ <-]; simpl; lia].
      destruct (np_array E p) as [arr|]; simpl; [|intros [= _ <-]; simpl; lia].
      destruct (cvtColor E arr); simpl; intros [= _ <-]; simpl;
        rewrite ?length_app; simpl; lia.
    + destruct (np_array E pil) as [arr|]; simpl; [|intros [= _ <-]; simpl; lia].
      destruct (cvtColor E arr); simpl; intros [= _ <-]; simpl;
        rewrite ?length_app; simpl; lia.
Qed.

Lemma scrub_text_one_more bgr σ r σ' :
  scrub_text E bgr σ = (r, σ') -> one_more σ σ'.
Proof.
  intros Hrun. split.
  - assert (Hr : respects (keeps (length (heap σ))) (scrub_text E bgr))
      by (unfold scrub_text; repeat run_step).
    by eapply Hr.
  - revert Hrun. unfold scrub_text, mbind, M_bind, deref, call, lift, raise, alloc.
    destruct (heap σ !! bgr) as [img|]; simpl; [|intros [= _ <-]; lia].
    destruct (cvtColor E img) as [rgb|]; simpl; [|intros [= _ <-]; simpl; lia].
    destruct (cvtColor_GRAY E img) as [g0|]; simpl; [|intros [= _ <-]; simpl; lia].
    destruct (bilateralFilter E g0 7 50 50) as [g|]; simpl; [|intros [= _ <-]; simpl; lia].
    destruct (image_to_data E rgb) as [data|]; simpl; [|intros [= _ <-]; simpl; lia].
    destruct (text_mask g data) as [mask|]; simpl; [|intros [= _ <-]; simpl; lia].
    destruct (array_max mask) as [mx|]; simpl; [|intros [= _ <-]; simpl; lia].
    destruct (mx =? 0); simpl; [intros [= _ <-]; simpl; lia|].
    destruct (inpaint E img mask 3); simpl; intros [= _ <-]; simpl;
      rewrite ?length_app; simpl; lia.
Qed.

Lemma scrub_people_one_more bgr bs db σ r σ' :
  scrub_people E bgr bs db σ = (r, σ') -> one_more σ σ'.
Proof.
  unfold scrub_people. unfold mbind at 1, M_bind at 1. rewrite copy_run.
  destruct (heap σ !! bgr) as [img|] eqn:Hb; [|intros [= _ <-]; apply one_more_refl].
  set (n := length (heap σ)). set (σ1 := World (heap σ ++ [img]) (trace σ)).
  set (rest := _ ≫= _). intros Hrest.
  assert (Hk : keeps n σ1 σ').
  { assert (Hr : respects (keeps n) rest); [|by eapply Hr].
    subst rest. run_step; [by apply face_pass_keeps|].
    run_step; [|apply respects_ret; apply _].
    destruct db; [by apply body_pass_keeps|apply respects_ret; apply _]. }
  assert (Hl : same_len σ1 σ').
  { assert (Hr : respects same_len rest); [|by eapply Hr].
    subst rest. unfold face_pass, body_pass.
    repeat first [run_step | progress cbv zeta];
      first [apply blur_face_same_len | apply blur_body_same_len]. }
  destruct Hk as [Hlen Hkeep]. unfold same_len in Hl. subst σ1. simpl in *.
  rewrite length_app in *. simpl in *. fold n in Hl, Hlen.
  split; [split|]; fold n.
  - lia.
  - intros l Hn _. rewrite Hkeep by (rewrite ?length_app; simpl; lia).
    by apply lookup_app_l.
  - lia.
Qed.
End Stages.

(** X17. [process_image] writes into no array that was in the store before
    it, and after the decoding no stage writes into the decoded buffer: the
    Text Redactor returns it or a new array and the Person Redactor blurs
    its own copy.  A run allocates at most three arrays (the decoded frame,
    the inpainted frame, the blurred copy), whether it returns or raises. *)
Theorem process_image_store (E : externals) (pil : PIL) (opts : Options) (σ : world) :
  let run := process_image E pil opts σ in
  (forall l a, heap σ !! l = Some a -> heap run.2 !! l = Some a) /\
  (forall b0 σ0, _pil_to_bgr E pil σ = (Ok b0, σ0) ->
     exists decoded, heap σ0 !! b0 = Some decoded /\ heap run.2 !! b0 = Some decoded) /\
  (length (heap run.2) <= length (heap σ) + 3)%nat.
Proof.
  intros run.
  assert (Hchain : exists σ0 σ1,
            one_more σ σ0 /\ one_more σ0 σ1 /\ one_more σ1 run.2 /\
            forall b0 σ0', _pil_to_bgr E pil σ = (Ok b0, σ0') -> σ0' = σ0).
  { subst run. unfold process_image.
    destruct (_pil_to_bgr E pil σ) as [[b0|e] σ0] eqn:H0.
    2: { rewrite (bind_Raise _ _ _ _ _ H0). exists σ0, σ0. simpl.
         split; [by eapply pil_to_bgr_one_more|].
         split; [apply one_more_refl|]. split; [apply one_more_refl|]. by intros ? ? [=]. }
    rewrite (bind_Ok _ _ _ _ _ H0).
    set (text_stage := if remove_text opts then scrub_text E b0 else mret b0).
    destruct (text_stage σ0) as [[b1|e] σ1] eqn:H1.
    2: { rewrite (bind_Raise _ _ _ _ _ H1). exists σ0, σ1. simpl.
         split; [by eapply pil_to_bgr_one_more|].
         split; [|split; [apply one_more_refl|by intros ? ? [= _ <-]]].
         subst text_stage. destruct (remove_text opts); [by eapply scrub_text_one_more|done]. }
    rewrite (bind_Ok _ _ _ _ _ H1), bind_ret_r.
    exists σ0, σ1. split; [by eapply pil_to_bgr_one_more|]. split; [|split].
    - subst text_stage. destruct (remove_text opts); [by eapply scrub_text_one_more|].
      injection H1 as _ <-. apply one_more_refl.
    - destruct (blur_people opts).
      + destruct (scrub_people E b1 _ _ σ1) as [r2 σ2] eqn:H2. simpl.
        by eapply scrub_people_one_more.
      + apply one_more_refl.
    - by intros ? ? [= _ <-]. }
  destruct Hchain as (σ0 & σ1 & [K0 L0] & [K1 L1] & [K2 L2] & Hdec).
  pose proof (keeps_all_trans _ _ _ K1 K2) as K12.
  pose proof (keeps_all_trans _ _ _ K0 K12) as K012.
  split; [|split].
  - intros l a Hl. pose proof (lookup_lt_Some _ _ _ Hl).
    destruct K012 as [_ K]. by rewrite K.
  - intros b0 σ0' Hrun. assert (σ0' = σ0) as -> by eauto.
    assert (Hlt : (b0 < length (heap σ0))%nat).
    { revert Hrun. unfold _pil_to_bgr, mbind, M_bind, call, alloc.
      destruct (negb _); simpl.
      - destruct (PIL_convert_RGB E pil) as [p|]; simpl; [|done].
        destruct (np_array E p) as [arr|]; simpl; [|done].
        destruct (cvtColor E arr); simpl; [|done].
        intros [= <- <-]. simpl. rewrite length_app. simpl. lia.
      - destruct (np_array E pil) as [arr|]; simpl; [|done].
        destruct (cvtColor E arr); simpl; [|done].
        intros [= <- <-]. simpl. rewrite length_app. simpl. lia. }
    destruct (lookup_lt_is_Some_2 _ _ Hlt) as [decoded Hd].
    exists decoded. split; [done|].
    destruct K12 as [_ K]. by rewrite K.
  - lia.
Qed.

(** X17 on the concrete environment with both stages on: the decoded frame
    is still at reference 0 after the run. *)
Lemma process_image_store_witness :
  exists decoded,
    heap (_pil_to_bgr Demo.E {| mode := "RGB"; raster := Demo.frame 100 100 |}
            (World [] [])).2 !! 0%nat = Some decoded /\
    heap (process_image Demo.E {| mode := "RGB"; raster := Demo.frame 100 100 |}
            {| blur_people := true; remove_text := true;
               blur_strength := 31; detect_bodies := true |}
            (World [] [])).2 !! 0%nat = Some decoded.
Proof.
  apply (proj1 (proj2 (process_image_store Demo.E
                         {| mode := "RGB"; raster := Demo.frame 100 100 |}
                         {| blur_people := true; remove_text := true;
                            blur_strength := 31; detect_bodies := true |}
                         (World [] []))) 0%nat).
  reflexivity.
Defined.
